(** * L91 motor bridge: frame encoder and CAN command bridge

    A shallow embedding of [src/l91_motor.cpp] (class [L91Motor]) and of
    [processCANMessage] from [src/main.cpp], with the properties of the
    frame encoder and of the command bridge proved over it.

    - [float] values are IEEE-754 binary32 numbers ([spec_float] with
      precision 24 and maximal exponent 128), with the operations of the
      standard library's executable specification;
    - [uint8_t], [int16_t] and [int] values are integers of [Z], with the
      conversions written out where the source converts;
    - the serial port of the motors and the debug console are observed
      through the list of events an operation produces;
    - the board program of [src/main.cpp] ([setup], [loop] and their
      helpers) is module [Main], run against a description of what the
      hardware answers. *)

From Stdlib Require Import ZArith List Bool Lia SpecFloat.
From Stdlib Require String Ascii.
Import ListNotations.
Local Open Scope Z_scope.

(** ** Single-precision floating point *)

Module F32.

Definition prec : Z := 24.
Definition emax : Z := 128.

Definition float := spec_float.

(** A well-formed binary32 datum: the mantissa of a finite number is
    canonical (24 bits, or fewer at the minimal exponent -149). *)
Definition valid (x : float) : bool := valid_binary prec emax x.

(** Conversion of an integer (exact whenever |z| < 2^24). *)
Definition of_Z (z : Z) : float := binary_normalize prec emax z 0 false.

Definition zero : float := S754_zero false.
Definition opp : float -> float := SFopp.
Definition mul : float -> float -> float := SFmul prec emax.
Definition div : float -> float -> float := SFdiv prec emax.
Definition eqb : float -> float -> bool := SFeqb.
Definition ltb : float -> float -> bool := SFltb.
Definition leb : float -> float -> bool := SFleb.

(** |m * 2^e|, rounded toward zero to an integer. *)
Definition trunc_mag (m : positive) (e : Z) : Z :=
  if 0 <=? e then Zpos m * 2 ^ e else Zpos m / 2 ^ (- e).

(** |m * 2^e|, rounded to the nearest integer, ties away from zero. *)
Definition round_mag (m : positive) (e : Z) : Z :=
  if 0 <=? e then Zpos m * 2 ^ e
  else (Zpos m + 2 ^ (- e - 1)) / 2 ^ (- e).

(** C++ conversion of a [float] to an integer type: the fractional part
    is discarded.  NaN and the infinities have no integer value. *)
Definition trunc (x : float) : option Z :=
  match x with
  | S754_zero _ => Some 0
  | S754_finite s m e => Some (cond_Zopp s (trunc_mag m e))
  | _ => None
  end.

(** Nearest integer ([roundf]). *)
Definition round (x : float) : option Z :=
  match x with
  | S754_zero _ => Some 0
  | S754_finite s m e => Some (cond_Zopp s (round_mag m e))
  | _ => None
  end.

End F32.

(** ** Integer conversions *)

(** Narrowing of an [int] to [int16_t]: reduction modulo 2^16 into
    [-32768, 32767]. *)
Definition int16_wrap (z : Z) : Z := (z + 32768) mod 65536 - 32768.

(** [(int16_t) x] for a [float] x: the truncated value, which has to be
    representable; the conversion is undefined otherwise. *)
Definition float_to_int16 (x : F32.float) : option Z :=
  match F32.trunc x with
  | Some z => if (-32768 <=? z) && (z <=? 32767) then Some z else None
  | None => None
  end.

(** ** Observable events, and the monad of operations *)

(** Lines printed on the debug console ([Serial]). *)
Inductive ConsoleMsg : Type :=
| MsgWriteFailed (expected got : nat)
| MsgCanRx (identifier dlc : Z) (payload : list Z)
| MsgMotorSpeed (motor_id : Z) (speed : F32.float).

Inductive Event : Type :=
| EvFlush                                   (* serial->flush() *)
| EvWrite (cmd : list Z) (written : nat)    (* serial->write(cmd, len) returned written *)
| EvDelay (ms : Z)                          (* delay(ms) *)
| EvConsole (msg : ConsoleMsg).

(** The serial transport is an external collaborator: [Script] lists the
    number of bytes it is ready to accept on each successive [write]; once
    the script is exhausted every write is accepted whole. *)
Definition Script := list nat.

(** An operation reads the transport script, produces events in order, and
    returns a value; [None] stands for behaviour the language leaves
    undefined. *)
Definition M (A : Type) : Type := Script -> option (A * Script * list Event).

Definition ret {A} (a : A) : M A := fun s => Some (a, s, []).

Definition bind {A B} (m : M A) (k : A -> M B) : M B := fun s =>
  match m s with
  | None => None
  | Some (a, s1, ev1) =>
      match k a s1 with
      | None => None
      | Some (b, s2, ev2) => Some (b, s2, ev1 ++ ev2)
      end
  end.

Definition lift {A} (o : option A) : M A := fun s =>
  match o with
  | Some a => Some (a, s, [])
  | None => None
  end.

Definition emit (e : Event) : M unit := fun s => Some (tt, s, [e]).

Declare Scope m_scope.
Delimit Scope m_scope with m.
Notation "x <- m ;; k" := (bind m (fun x => k))
  (at level 61, m at next level, right associativity) : m_scope.
Notation "m ;; k" := (bind m (fun _ => k))
  (at level 61, right associativity) : m_scope.
Local Open Scope m_scope.

Definition serial_flush : M unit := emit EvFlush.
Definition delay (ms : Z) : M unit := emit (EvDelay ms).
Definition console (msg : ConsoleMsg) : M unit := emit (EvConsole msg).

(** Number of bytes the transport takes of a [len]-byte write. *)
Definition accepted (s : Script) (len : nat) : nat :=
  match s with
  | [] => len
  | a :: _ => Nat.min a len
  end.

Definition serial_write (cmd : list Z) : M nat := fun s =>
  let written := accepted s (length cmd) in
  Some (written, tl s, [EvWrite cmd written]).

(** What an event list shows of the motor link. *)

(** The frames handed to [write], in order. *)
Fixpoint frames (evs : list Event) : list (list Z) :=
  match evs with
  | [] => []
  | EvWrite cmd _ :: r => cmd :: frames r
  | _ :: r => frames r
  end.

(** The bytes that went out on the wire. *)
Fixpoint wire (evs : list Event) : list Z :=
  match evs with
  | [] => []
  | EvWrite cmd written :: r => firstn written cmd ++ wire r
  | _ :: r => wire r
  end.

(** The failures reported on the console. *)
Fixpoint failures (evs : list Event) : list (nat * nat) :=
  match evs with
  | [] => []
  | EvConsole (MsgWriteFailed expected got) :: r => (expected, got) :: failures r
  | _ :: r => failures r
  end.

(** ** The frame encoder ([L91Motor]) *)

Definition MOTOR_12_CAN_ID : Z := 0x0C.
Definition MOTOR_13_CAN_ID : Z := 0x0D.
Definition MOTOR_14_CAN_ID : Z := 0x0E.

Definition sendCommand (cmd : list Z) : M bool :=
  serial_flush ;;
  written <- serial_write cmd ;;
  if negb (written =? length cmd)%nat then
    console (MsgWriteFailed (length cmd) written) ;;
    ret false
  else
    serial_flush ;;
    delay 10 ;;
    ret true.

Definition activateMotor (can_id : Z) : M bool :=
  let cmd := [0x41; 0x54; 0x00; 0x07; 0xe8; can_id; 0x01; 0x00; 0x0d; 0x0a] in
  result <- sendCommand cmd ;;
  delay 200 ;;
  ret result.

Definition deactivateMotor (can_id : Z) : M bool :=
  let cmd := [0x41; 0x54; 0x00; 0x07; 0xe8; can_id; 0x00; 0x00; 0x0d; 0x0a] in
  result <- sendCommand cmd ;;
  delay 100 ;;
  ret result.

Definition loadParams (can_id : Z) : M bool :=
  let cmd := [0x41; 0x54; 0x20; 0x07; 0xe8; can_id; 0x08; 0x00;
              0xc4; 0x00; 0x00; 0x00; 0x00; 0x00; 0x00; 0x0d; 0x0a] in
  result <- sendCommand cmd ;;
  delay 200 ;;
  ret result.

(** The scale factor [3283.0f]. *)
Definition SCALE : F32.float := F32.of_Z 3283.

(** The value of [speed_val] when [moveJog] has run its three branches. *)
Definition speed_val (speed : F32.float) : option Z :=
  if F32.eqb speed F32.zero then
    Some (int16_wrap 0x7fff)
  else if F32.ltb F32.zero speed then
    match float_to_int16 (F32.mul speed SCALE) with
    | Some k => Some (int16_wrap (0x8000 + k))
    | None => None
    end
  else
    match float_to_int16 (F32.mul speed SCALE) with
    | Some k => Some (int16_wrap (0x7fff + k))
    | None => None
    end.

Definition moveJog (can_id : Z) (speed : F32.float) (flag : Z) : M bool :=
  v <- lift (speed_val speed) ;;
  let cmd := [0x41; 0x54; 0x90; 0x07; 0xe8; can_id; 0x08; 0x05; 0x70;
              0x00; 0x00; 0x07; flag;
              Z.land (Z.shiftr v 8) 0xFF; Z.land v 0xFF;
              0x0d; 0x0a] in
  sendCommand cmd.

Definition stopMotor (can_id : Z) : M bool :=
  moveJog can_id F32.zero 0.

Definition moveMotor (can_id : Z) (speed : F32.float) : M bool :=
  let flag := if F32.eqb speed F32.zero then 0 else 1 in
  moveJog can_id speed flag.

(** ** The command bridge ([processCANMessage]) *)

(** A received bus frame ([twai_message_t]).  [data] lists the [uint8_t]
    values of the array [data[8]] from index 0; an element the list leaves
    out is 0. *)
Record twai_message : Type := {
  identifier : Z;
  data_length_code : Z;
  data : list Z
}.

(** [TWAI_FRAME_MAX_DLC], the number of elements of [data]. *)
Definition TWAI_FRAME_MAX_DLC : nat := 8.

(** [message.data[i]]; a read past the end of the array is undefined. *)
Definition data_at (message : twai_message) (i : nat) : option Z :=
  if (i <? TWAI_FRAME_MAX_DLC)%nat then Some (nth i (data message) 0) else None.

(** The bytes the echo loop
    [for (int i = 0; i < message.data_length_code; i++)] reads, from index
    [from] on, [count] of them. *)
Fixpoint echo (message : twai_message) (from count : nat) : option (list Z) :=
  match count with
  | O => Some []
  | S count' =>
      match data_at message from, echo message (S from) count' with
      | Some b, Some rest => Some (b :: rest)
      | _, _ => None
      end
  end.

(** The first [data_length_code] elements of the array. *)
Definition payload_read (message : twai_message) : list Z :=
  map (fun i => nth i (data message) 0)
    (seq 0 (Z.to_nat (data_length_code message))).

(** The speed the bridge derives from payload byte 0, before the clamp. *)
Definition raw_speed (b : Z) : F32.float :=
  F32.div (F32.of_Z b) (F32.of_Z 127).

Definition clamp (speed : F32.float) : F32.float :=
  let speed := if F32.ltb (F32.of_Z 1) speed then F32.of_Z 1 else speed in
  let speed := if F32.ltb speed (F32.of_Z (-1)) then F32.of_Z (-1) else speed in
  speed.

(** [rx] is what [twai_receive] delivered within its timeout. *)
Definition processCANMessage (rx : option twai_message) : M unit :=
  match rx with
  | None => ret tt
  | Some message =>
      payload <- lift (echo message 0 (Z.to_nat (data_length_code message))) ;;
      console (MsgCanRx (identifier message) (data_length_code message)
                 payload) ;;
      let motor_id := Z.land (identifier message) 0x0F in
      if (0x0C <=? motor_id) && (motor_id <=? 0x0E)
         && (1 <=? data_length_code message) then
        let speed := clamp (raw_speed (nth 0 (data message) 0)) in
        console (MsgMotorSpeed motor_id speed) ;;
        moveMotor motor_id speed ;;
        ret tt
      else
        ret tt
  end.

(** Observations of one run. *)
Definition events_of {A} (m : M A) (s : Script) : option (list Event) :=
  match m s with
  | Some (_, _, evs) => Some evs
  | None => None
  end.

Definition result_of {A} (m : M A) (s : Script) : option A :=
  match m s with
  | Some (a, _, _) => Some a
  | None => None
  end.

(** The frames an operation hands to the transport, and the bytes that
    leave on the wire. *)
Definition frames_of {A} (m : M A) (s : Script) : option (list (list Z)) :=
  option_map frames (events_of m s).

Definition wire_of {A} (m : M A) (s : Script) : option (list Z) :=
  option_map wire (events_of m s).

(** The 16-bit pattern of an [int16_t], as the two speed bytes carry it. *)
Definition code16 (v : Z) : Z := v mod 65536.

(** ** The documented wire layout

    Marker, op-code, address, motor id, data length, payload, terminator. *)
Definition layout (opcode can_id len : Z) (payload : list Z) : list Z :=
  [0x41; 0x54] ++ [opcode] ++ [0x07; 0xe8] ++ [can_id] ++ [len]
  ++ payload ++ [0x0d; 0x0a].

(** The [n] payload bytes of a frame: those after the data-length byte. *)
Definition payload_of (n : nat) (frame : list Z) : list Z :=
  firstn n (skipn 7 frame).

(** The operations of the encoder, each with the frame it builds. *)
Inductive sends : M bool -> list Z -> Prop :=
| sends_command cmd :
    sends (sendCommand cmd) cmd
| sends_activate can_id :
    sends (activateMotor can_id)
      [0x41; 0x54; 0x00; 0x07; 0xe8; can_id; 0x01; 0x00; 0x0d; 0x0a]
| sends_deactivate can_id :
    sends (deactivateMotor can_id)
      [0x41; 0x54; 0x00; 0x07; 0xe8; can_id; 0x00; 0x00; 0x0d; 0x0a]
| sends_load can_id :
    sends (loadParams can_id)
      [0x41; 0x54; 0x20; 0x07; 0xe8; can_id; 0x08; 0x00;
       0xc4; 0x00; 0x00; 0x00; 0x00; 0x00; 0x00; 0x0d; 0x0a]
| sends_jog can_id speed flag v :
    speed_val speed = Some v ->
    sends (moveJog can_id speed flag)
      [0x41; 0x54; 0x90; 0x07; 0xe8; can_id; 0x08; 0x05; 0x70;
       0x00; 0x00; 0x07; flag;
       Z.land (Z.shiftr v 8) 0xFF; Z.land v 0xFF; 0x0d; 0x0a].

(** The guard of [processCANMessage]. *)
Definition accepts_frame (message : twai_message) : bool :=
  let motor_id := Z.land (identifier message) 0x0F in
  (0x0C <=? motor_id) && (motor_id <=? 0x0E) && (1 <=? data_length_code message).

(** What the bridge makes of one payload byte. *)
Definition byte_speed_ok (b : Z) : bool :=
  let raw := raw_speed b in
  let speed := clamp raw in
  F32.leb F32.zero raw && F32.leb raw (raw_speed 255)
  && F32.leb F32.zero speed && F32.leb speed (F32.of_Z 1)
  && negb (F32.ltb speed F32.zero) && F32.valid speed.

(** ** The speed code in the words of the specification

    [round(speed * SCALE)] is the product rounded to the nearest integer;
    this definition follows the specification, not the source, and is
    compared with [speed_val]. *)
Definition spec_speed_code (speed : F32.float) : option Z :=
  if F32.eqb speed F32.zero then Some 0x7fff
  else if F32.ltb F32.zero speed then
    option_map (fun r => 0x8000 + r) (F32.round (F32.mul speed SCALE))
  else
    option_map (fun r => 0x7fff + r) (F32.round (F32.mul speed SCALE)).

(** The speed 0.25 and the next single-precision number above it. *)
Definition quarter : F32.float := S754_finite false 8388608 (-25).
Definition quarter_next : F32.float := S754_finite false 8388609 (-25).

(** ** Rounding to single precision, on integers

    The definitions used to describe what [F32.mul speed SCALE] computes:
    the exact product is read as an integer number of units of 2^-161
    (every product of a well-formed speed with 3283 is one). *)

Module Rounding.

(** [mrs] is what is left of [M] after [k] single shifts: the quotient,
    and the position of the remainder relative to one half. *)
Definition shifted (M : Z) (k : nat) (mrs : shr_record) : Prop :=
  exists rem,
    0 <= shr_m mrs /\
    0 <= rem < 2 ^ Z.of_nat k /\
    M = shr_m mrs * 2 ^ Z.of_nat k + rem /\
    (shr_r mrs = true <-> 2 ^ Z.of_nat k <= 2 * rem) /\
    (shr_s mrs = true <-> rem <> 0 /\ 2 * rem <> 2 ^ Z.of_nat k).

(** Round to nearest, ties to even, of [M / 2^n]. *)
Definition rne (M n : Z) : Z :=
  let q := M / 2 ^ n in
  let t := 2 * (M mod 2 ^ n) in
  if t <? 2 ^ n then q
  else if t =? 2 ^ n then (if Z.even q then q else q + 1)
  else q + 1.

(** [pos X] is the position at which a positive integer [X], read in
    units of 2^-161, is cut: 24 significant bits, but no lower than the
    subnormal limit 2^-149. *)
Definition pos (X : Z) : Z := Z.max (Zdigits2 X - 24) 12.

Definition rounded (X : Z) : Z := rne X (pos X) * 2 ^ pos X.

(** |speed| * 3283, in units of 2^-161, for |speed| = m * 2^e. *)
Definition units (m : positive) (e : Z) : Z :=
  Zpos m * 13447168 * 2 ^ (e + 149).

(** Integer part of the product once it is rounded to single precision. *)
Definition ticks (X : Z) : Z := rounded X / 2 ^ 161.

(** Full speed: 1.0 is [8388608 * 2^-23]. *)
Definition full : Z := units 8388608 (-23).

(** The exact value of a finite number times 3283, in units of 2^-161. *)
Definition value (x : F32.float) : option Z :=
  match x with
  | S754_zero _ => Some 0
  | S754_finite s m e => Some (cond_Zopp s (units m e))
  | _ => None
  end.

End Rounding.

Import Rounding.

(** ** Further definitions for the encoder and the bridge *)

(** Integer part of [q * 2^E]. *)
Definition ipart (q E : Z) : Z :=
  if 0 <=? E then q * 2 ^ E else q / 2 ^ (- E).

(** The 16-bit code as a function of the signed exact product [a], in
    units of 2^-161. *)
Definition code_of_units (a : Z) : Z :=
  if a =? 0 then 0x7fff
  else if 0 <? a then 0x8000 + ticks a
  else 0x7fff - ticks (- a).

(** Reading two speed bytes back as a big-endian [int16_t]. *)
Definition decode_int16 (hi lo : Z) : Z := int16_wrap (hi * 256 + lo).

Definition ten : F32.float := F32.of_Z 10.

(** 2^-12 = 1/4096, just below one code unit (1/3283). *)
Definition tiny : F32.float := S754_finite false 8388608 (-35).

(** 2555/256 = 9.98046875. *)
Definition wide : F32.float := S754_finite false 10465280 (-20).

(** The speed code the bridge sends for payload byte [b], in closed
    form. *)
Definition bridge_code (b : Z) : Z :=
  if b =? 0 then 0x7fff else 0x8000 + Z.min b 127 * 3283 / 127.

Definition bridge_byte_ok (b : Z) : bool :=
  match speed_val (clamp (raw_speed b)) with
  | Some v => v =? int16_wrap (bridge_code b)
  | None => false
  end
  && Bool.eqb (F32.eqb (clamp (raw_speed b)) F32.zero) (b =? 0).

(** The time an event list spends in [delay], in milliseconds. *)
Definition waited (evs : list Event) : Z :=
  fold_right (fun e t => match e with EvDelay ms => ms + t | _ => t end) 0 evs.

(** The calls of [serial->flush()] in an event list. *)
Definition flushes (evs : list Event) : nat :=
  length (filter (fun e => match e with EvFlush => true | _ => false end) evs).

Module Main.

Import String Ascii.

(** ** The board program ([main.cpp]): servo, LED, bus driver, boot and
    polling loop *)

Definition servoPin : Z := 13.
Definition pwmChannel : Z := 0.
Definition redPin : Z := 15.
Definition greenPin : Z := 2.
Definition bluePin : Z := 4.
Definition sdaPin : Z := 21.
Definition sclPin : Z := 22.

(** What the hardware answers during [setup]. *)
Record Board : Type := {
  i2c_error : Z -> Z;       (* Wire.endTransmission() after beginTransmission(address) *)
  mpu_begin : bool;         (* mpu.begin() *)
  twai_install_ok : bool;   (* twai_driver_install(...) == ESP_OK *)
  twai_start_ok : bool      (* twai_start() == ESP_OK *)
}.

Inductive MpuSetting : Type :=
| AccelerometerRange8G
| GyroRange500Deg
| FilterBandwidth21Hz.

Inductive SysEvent : Type :=
| SysLink (e : Event)                  (* the motor link, delays, encoder and bridge console lines *)
| SysSerialBegin (baud : Z)            (* Serial.begin(baud) *)
| SysSerial2Begin (baud : Z)           (* serial->begin(baudRate, SERIAL_8N1) *)
| SysPrint (text : string)             (* Serial.print(text) *)
| SysPrintln (text : string)           (* Serial.println(text) *)
| SysPrintlnHex (n : Z)                (* Serial.println(n, HEX) *)
| SysPrintFloat (x : F32.float)        (* Serial.print(x) *)
| SysPrintlnFloat (x : F32.float)      (* Serial.println(x) *)
| SysLedcSetup (channel freq bits : Z)
| SysLedcAttachPin (pin channel : Z)
| SysLedcWrite (channel duty : Z)
| SysPinModeOutput (pin : Z)
| SysDigitalWrite (pin value : Z)
| SysWireBegin (sda scl : Z)
| SysI2CProbe (address error : Z)      (* beginTransmission(address); endTransmission() *)
| SysMpuBegin (ok : bool)
| SysMpuSet (setting : MpuSetting)
| SysMpuGetEvent
| SysTwaiInstall (ok : bool)
| SysTwaiStart (ok : bool).

Definition Sys (A : Type) : Type :=
  Script -> option (A * Script * list SysEvent).

Definition sret {A} (a : A) : Sys A := fun s => Some (a, s, []).

Definition sbind {A B} (m : Sys A) (k : A -> Sys B) : Sys B := fun s =>
  match m s with
  | None => None
  | Some (a, s1, ev1) =>
      match k a s1 with
      | None => None
      | Some (b, s2, ev2) => Some (b, s2, ev1 ++ ev2)
      end
  end.

Definition semit (e : SysEvent) : Sys unit := fun s => Some (tt, s, [e]).

(** An operation of the encoder or of the bridge, run as part of the
    board program. *)
Definition link {A} (m : M A) : Sys A := fun s =>
  match m s with
  | None => None
  | Some (a, s1, evs) => Some (a, s1, map SysLink evs)
  end.

(** Events in front of an outcome. *)
Definition prepend {A} (evs : list SysEvent)
    (r : option (A * Script * list SysEvent)) : option (A * Script * list SysEvent) :=
  match r with
  | Some (a, s, evs') => Some (a, s, evs ++ evs')
  | None => None
  end.

Declare Scope sys_scope.
Delimit Scope sys_scope with sys.
Notation "x <- m ;; k" := (sbind m (fun x => k))
  (at level 61, m at next level, right associativity) : sys_scope.
Notation "m ;; k" := (sbind m (fun _ => k))
  (at level 61, right associativity) : sys_scope.

Definition serial_print (text : string) : Sys unit := semit (SysPrint text).
Definition serial_println (text : string) : Sys unit := semit (SysPrintln text).
Definition sys_delay (ms : Z) : Sys unit := link (delay ms).

(** The line feed of ["\n"]. *)
Definition nl : string := String (ascii_of_nat 10) EmptyString.

(** [(uint32_t) x]. *)
Definition uint32 (x : Z) : Z := x mod 2 ^ 32.

(** The duty [setPulse] computes, in [uint32_t] arithmetic. *)
Definition pulse_duty (us : Z) : Z := uint32 (uint32 us * 65535) / 20000.

Definition setPulse (us : Z) : Sys unit :=
  semit (SysLedcWrite pwmChannel (pulse_duty us)).

Definition setRGB (r g b : Z) : Sys unit :=
  (semit (SysDigitalWrite redPin r) ;;
   semit (SysDigitalWrite greenPin g) ;;
   semit (SysDigitalWrite bluePin b))%sys.

Definition initCAN (hw : Board) : Sys bool :=
  (semit (SysTwaiInstall (twai_install_ok hw)) ;;
   if twai_install_ok hw then
     serial_println "CAN driver installed" ;;
     semit (SysTwaiStart (twai_start_ok hw)) ;;
     if twai_start_ok hw then
       serial_println "CAN bus started (500kbps)" ;;
       sret true
     else
       serial_println "Failed to start CAN bus" ;;
       sret false
   else
     serial_println "Failed to install CAN driver" ;;
     sret false)%sys.

(** [L91Motor::begin], for the controller built on [Serial2] with the
    given baud rate. *)
Definition begin (baudRate : Z) : Sys bool :=
  (semit (SysSerial2Begin baudRate) ;;
   sys_delay 100 ;;
   link serial_flush ;;
   sret true)%sys.

(** The I2C scan of [setup]: the loop over the addresses still to probe,
    with the [byte] counter [devices]. *)
Fixpoint scan (hw : Board) (addresses : list Z) (devices : Z) : Sys Z :=
  match addresses with
  | [] => sret devices
  | address :: rest =>
      (let error := i2c_error hw address in
       semit (SysI2CProbe address error) ;;
       if error =? 0 then
         serial_print "I2C device found at address 0x" ;;
         (if address <? 16 then serial_print "0" else sret tt) ;;
         semit (SysPrintlnHex address) ;;
         scan hw rest ((devices + 1) mod 256)
       else
         scan hw rest devices)%sys
  end.

(** The addresses [for (byte address = 1; address < 127; address++)]
    visits. *)
Definition scan_addresses : list Z := map Z.of_nat (seq 1 126).

(** The block [setup] runs for one motor. *)
Definition setup_motor (label : string) (can_id : Z) : Sys unit :=
  (serial_print label ;;
   activated <- link (activateMotor can_id) ;;
   if activated then
     serial_print "Activated, " ;;
     sys_delay 200 ;;
     loaded <- link (loadParams can_id) ;;
     if loaded then serial_println "Params loaded ✓"
     else serial_println "Params failed ✗"
   else
     serial_println "Activate failed ✗")%sys.

(** [setup]; the value returned is the global [mpuInitialized] it
    leaves. *)
Definition setup (hw : Board) : Sys bool :=
  (semit (SysSerialBegin 115200) ;;
   sys_delay 1000 ;;
   serial_println (nl ++ "========================================") ;;
   serial_println "ESP32 CAN-to-L91 Motor Bridge" ;;
   serial_println ("========================================" ++ nl) ;;
   semit (SysLedcSetup pwmChannel 50 16) ;;
   semit (SysLedcAttachPin servoPin pwmChannel) ;;
   semit (SysPinModeOutput redPin) ;;
   semit (SysPinModeOutput greenPin) ;;
   semit (SysPinModeOutput bluePin) ;;
   setRGB 0 1 0 ;;
   semit (SysWireBegin sdaPin sclPin) ;;
   sys_delay 100 ;;
   serial_println "Scanning I2C bus..." ;;
   devices <- scan hw scan_addresses 0 ;;
   (if devices =? 0 then serial_println "No I2C devices found!" else sret tt) ;;
   serial_println (nl ++ "Initializing MPU-6050...") ;;
   semit (SysMpuBegin (mpu_begin hw)) ;;
   mpuInitialized <-
     (if mpu_begin hw then
        serial_println "MPU-6050 initialized at 0x68!" ;;
        semit (SysMpuSet AccelerometerRange8G) ;;
        semit (SysMpuSet GyroRange500Deg) ;;
        semit (SysMpuSet FilterBandwidth21Hz) ;;
        sret true
      else
        serial_println "MPU-6050 not found! Continuing without sensor..." ;;
        sret false) ;;
   serial_println (nl ++ "Initializing CAN bus...") ;;
   can_ok <- initCAN hw ;;
   (if can_ok then
      serial_println "✓ CAN bus ready (receiving from vision system)" ;;
      setRGB 0 0 1
    else
      serial_println "✗ CAN bus initialization failed" ;;
      setRGB 1 0 0) ;;
   serial_println (nl ++ "Initializing L91 Motor Controller (Serial2 @ 921600 baud)...") ;;
   begun <- begin 921600 ;;
   (if begun then
      serial_println "✓ L91 Motor Controller ready" ;;
      sys_delay 500 ;;
      serial_println (nl ++ "Initializing Robstride motors...") ;;
      setup_motor "Motor 12 (0x0C): " MOTOR_12_CAN_ID ;;
      setup_motor "Motor 13 (0x0D): " MOTOR_13_CAN_ID ;;
      setup_motor "Motor 14 (0x0E): " MOTOR_14_CAN_ID ;;
      setRGB 0 1 1
    else
      serial_println "✗ L91 Motor Controller initialization failed" ;;
      setRGB 1 1 0) ;;
   setPulse 1500 ;;
   serial_println (nl ++ "========================================") ;;
   serial_println "System Ready!" ;;
   serial_println "- CAN bus: Listening for commands" ;;
   serial_println "- L91 Motors: Ready (Serial2 @ 921600)" ;;
   serial_println ("========================================" ++ nl) ;;
   sys_delay 1000 ;;
   sret mpuInitialized)%sys.

(** The globals and function statics [loop] keeps between iterations. *)
Record Globals : Type := {
  mpuInitialized : bool;
  lastMPURead : Z;
  lastServoMove : Z
}.

(** What the environment supplies to one iteration of [loop]: the bus
    frame received, if any; the value of each [millis()] call the
    iteration may make, in order; the sensor reading. *)
Record Inputs : Type := {
  rx : option twai_message;
  millis_mpu : Z;          (* millis() in the MPU condition *)
  millis_mpu_done : Z;     (* lastMPURead = millis() *)
  millis_servo : Z;        (* millis() in the servo condition *)
  millis_servo_done : Z;   (* lastServoMove = millis() *)
  accel_x : F32.float; accel_y : F32.float; accel_z : F32.float;
  gyro_x : F32.float; gyro_y : F32.float; gyro_z : F32.float;
  temperature : F32.float
}.

(** [now - last > limit] on [unsigned long] values. *)
Definition elapsed_over (now last limit : Z) : bool :=
  limit <? uint32 (now - last).

Definition loop (g : Globals) (i : Inputs) : Sys Globals :=
  (link (processCANMessage (rx i)) ;;
   g1 <-
     (if mpuInitialized g && elapsed_over (millis_mpu i) (lastMPURead g) 1000 then
        semit SysMpuGetEvent ;;
        serial_println "=== MPU-6050 Readings ===" ;;
        serial_print "Accel X: " ;; semit (SysPrintFloat (accel_x i)) ;;
        serial_print "  Y: " ;; semit (SysPrintFloat (accel_y i)) ;;
        serial_print "  Z: " ;; semit (SysPrintlnFloat (accel_z i)) ;;
        serial_print "Gyro X: " ;; semit (SysPrintFloat (gyro_x i)) ;;
        serial_print "  Y: " ;; semit (SysPrintFloat (gyro_y i)) ;;
        serial_print "  Z: " ;; semit (SysPrintlnFloat (gyro_z i)) ;;
        serial_print "Temperature: " ;; semit (SysPrintFloat (temperature i)) ;;
        serial_println " C" ;;
        serial_println "" ;;
        sret {| mpuInitialized := mpuInitialized g;
                lastMPURead := uint32 (millis_mpu_done i);
                lastServoMove := lastServoMove g |}
      else sret g) ;;
   g2 <-
     (if elapsed_over (millis_servo i) (lastServoMove g1) 5000 then
        setPulse 1800 ;;
        sys_delay 2000 ;;
        setPulse 1500 ;;
        sret {| mpuInitialized := mpuInitialized g1;
                lastMPURead := lastMPURead g1;
                lastServoMove := uint32 (millis_servo_done i) |}
      else sret g1) ;;
   sys_delay 10 ;;
   sret g2)%sys.

(** ** What an event list of the board program shows *)

Definition link_events (evs : list SysEvent) : list Event :=
  flat_map (fun e => match e with SysLink x => [x] | _ => [] end) evs.

(** The frames handed to the motor link. *)
Definition sys_frames (evs : list SysEvent) : list (list Z) :=
  frames (link_events evs).

Definition led_writes (evs : list SysEvent) : list (Z * Z) :=
  flat_map (fun e => match e with SysDigitalWrite p v => [(p, v)] | _ => [] end) evs.

(** The state of the three LED pins (red, green, blue) after a list of
    writes. *)
Definition led_after (writes : list (Z * Z)) (led : Z * Z * Z) : Z * Z * Z :=
  fold_left
    (fun '(r, g, b) '(p, v) =>
       if p =? redPin then (v, g, b)
       else if p =? greenPin then (r, v, b)
       else if p =? bluePin then (r, g, v)
       else (r, g, b))
    writes led.

Definition duties (evs : list SysEvent) : list Z :=
  flat_map (fun e => match e with SysLedcWrite _ d => [d] | _ => [] end) evs.

Definition probes (evs : list SysEvent) : list (Z * Z) :=
  flat_map (fun e => match e with SysI2CProbe a r => [(a, r)] | _ => [] end) evs.

Definition mpu_settings (evs : list SysEvent) : list MpuSetting :=
  flat_map (fun e => match e with SysMpuSet x => [x] | _ => [] end) evs.

Definition twai_calls (evs : list SysEvent) : list SysEvent :=
  flat_map (fun e => match e with
                     | SysTwaiInstall _ | SysTwaiStart _ => [e]
                     | _ => []
                     end) evs.

Definition lines (evs : list SysEvent) : list string :=
  flat_map (fun e => match e with SysPrintln t => [t] | _ => [] end) evs.

(** ** Closed forms of the loops and blocks of [setup] *)

Definition scan_events (hw : Board) (addresses : list Z) : list SysEvent :=
  flat_map
    (fun address =>
       SysI2CProbe address (i2c_error hw address) ::
       if i2c_error hw address =? 0 then
         [SysPrint "I2C device found at address 0x"]
         ++ (if address <? 16 then [SysPrint "0"] else [])
         ++ [SysPrintlnHex address]
       else [])
    addresses.

Definition scan_count (hw : Board) (addresses : list Z) (devices : Z) : Z :=
  fold_left
    (fun d address => if i2c_error hw address =? 0 then (d + 1) mod 256 else d)
    addresses devices.

(** The script after the block of one motor. *)
Definition motor_script (s : Script) : Script :=
  if (accepted s 10 =? 10)%nat then tl (tl s) else tl s.

(** The frames [setup] sends for the motors still to initialise, given
    the transport script: the activation frame of each, followed by its
    parameter frame when the activation was written whole. *)
Fixpoint boot_frames (ids : list Z) (s : Script) : list (list Z) :=
  match ids with
  | [] => []
  | can_id :: rest =>
      [0x41; 0x54; 0x00; 0x07; 0xe8; can_id; 0x01; 0x00; 0x0d; 0x0a] ::
      if (accepted s 10 =? 10)%nat then
        [0x41; 0x54; 0x20; 0x07; 0xe8; can_id; 0x08; 0x00;
         0xc4; 0x00; 0x00; 0x00; 0x00; 0x00; 0x00; 0x0d; 0x0a] ::
        boot_frames rest (tl (tl s))
      else
        boot_frames rest (tl s)
  end.

(** The events of the initialisation of the three motors in [setup], when
    the blocks of the motors produce [m12], [m13] and [m14]. *)
Definition motors_events (m12 m13 m14 : list SysEvent) : list SysEvent :=
  [SysPrintln "✓ L91 Motor Controller ready"; SysLink (EvDelay 500);
   SysPrintln (nl ++ "Initializing Robstride motors...")]
  ++ m12 ++ m13 ++ m14
  ++ [SysDigitalWrite redPin 0; SysDigitalWrite greenPin 1;
      SysDigitalWrite bluePin 1].

(** The events of [setup], when its motor part produces [motors]. *)
Definition setup_events (hw : Board) (motors : list SysEvent) : list SysEvent :=
  [SysSerialBegin 115200; SysLink (EvDelay 1000);
   SysPrintln (nl ++ "========================================");
   SysPrintln "ESP32 CAN-to-L91 Motor Bridge";
   SysPrintln ("========================================" ++ nl);
   SysLedcSetup pwmChannel 50 16; SysLedcAttachPin servoPin pwmChannel;
   SysPinModeOutput redPin; SysPinModeOutput greenPin; SysPinModeOutput bluePin;
   SysDigitalWrite redPin 0; SysDigitalWrite greenPin 1; SysDigitalWrite bluePin 0;
   SysWireBegin sdaPin sclPin; SysLink (EvDelay 100);
   SysPrintln "Scanning I2C bus..."]
  ++ scan_events hw scan_addresses
  ++ (if scan_count hw scan_addresses 0 =? 0
      then [SysPrintln "No I2C devices found!"] else [])
  ++ [SysPrintln (nl ++ "Initializing MPU-6050..."); SysMpuBegin (mpu_begin hw)]
  ++ (if mpu_begin hw
      then [SysPrintln "MPU-6050 initialized at 0x68!";
            SysMpuSet AccelerometerRange8G; SysMpuSet GyroRange500Deg;
            SysMpuSet FilterBandwidth21Hz]
      else [SysPrintln "MPU-6050 not found! Continuing without sensor..."])
  ++ [SysPrintln (nl ++ "Initializing CAN bus...")]
  ++ (SysTwaiInstall (twai_install_ok hw) ::
      if twai_install_ok hw then
        [SysPrintln "CAN driver installed"; SysTwaiStart (twai_start_ok hw);
         SysPrintln (if twai_start_ok hw then "CAN bus started (500kbps)"
                     else "Failed to start CAN bus")]
      else [SysPrintln "Failed to install CAN driver"])
  ++ (if twai_install_ok hw && twai_start_ok hw
      then [SysPrintln "✓ CAN bus ready (receiving from vision system)";
            SysDigitalWrite redPin 0; SysDigitalWrite greenPin 0;
            SysDigitalWrite bluePin 1]
      else [SysPrintln "✗ CAN bus initialization failed";
            SysDigitalWrite redPin 1; SysDigitalWrite greenPin 0;
            SysDigitalWrite bluePin 0])
  ++ [SysPrintln (nl ++ "Initializing L91 Motor Controller (Serial2 @ 921600 baud)...");
      SysSerial2Begin 921600; SysLink (EvDelay 100); SysLink EvFlush]
  ++ motors
  ++ [SysLedcWrite pwmChannel (pulse_duty 1500);
      SysPrintln (nl ++ "========================================");
      SysPrintln "System Ready!";
      SysPrintln "- CAN bus: Listening for commands";
      SysPrintln "- L91 Motors: Ready (Serial2 @ 921600)";
      SysPrintln ("========================================" ++ nl);
      SysLink (EvDelay 1000)].

(** The events of a run. *)
Definition sys_events_of {A} (m : Sys A) (s : Script) : option (list SysEvent) :=
  match m s with
  | Some (_, _, evs) => Some evs
  | None => None
  end.

End Main.

(** ** Running the encoder *)

Section Transmission.

Variable cmd : list Z.
Variable s : Script.

Let written := accepted s (length cmd).

Lemma sendCommand_whole :
  written = length cmd ->
  sendCommand cmd s =
  Some (true, tl s, [EvFlush; EvWrite cmd written; EvFlush; EvDelay 10]).
Proof.
  intros Hw. unfold sendCommand, bind, serial_flush, serial_write, emit.
  simpl. fold written. rewrite Hw, Nat.eqb_refl. simpl.
  reflexivity.
Qed.

Lemma sendCommand_short :
  written <> length cmd ->
  sendCommand cmd s =
  Some (false, tl s,
        [EvFlush; EvWrite cmd written;
         EvConsole (MsgWriteFailed (length cmd) written)]).
Proof.
  intros Hw. unfold sendCommand, bind, serial_flush, serial_write, emit.
  simpl. fold written.
  destruct (Nat.eqb_spec written (length cmd)) as [E | _]; [contradiction |].
  reflexivity.
Qed.

Lemma sendCommand_result :
  result_of (sendCommand cmd) s = Some (written =? length cmd)%nat.
Proof.
  unfold result_of.
  destruct (Nat.eqb_spec written (length cmd)) as [E | N].
  - rewrite (sendCommand_whole E). reflexivity.
  - rewrite (sendCommand_short N). reflexivity.
Qed.

Lemma sendCommand_frames : frames_of (sendCommand cmd) s = Some [cmd].
Proof.
  unfold frames_of, events_of.
  destruct (Nat.eq_dec written (length cmd)) as [E | N].
  - rewrite (sendCommand_whole E). reflexivity.
  - rewrite (sendCommand_short N). reflexivity.
Qed.

Lemma sendCommand_wire :
  wire_of (sendCommand cmd) s = Some (firstn written cmd).
Proof.
  unfold wire_of, events_of.
  destruct (Nat.eq_dec written (length cmd)) as [E | N].
  - rewrite (sendCommand_whole E). simpl. now rewrite app_nil_r.
  - rewrite (sendCommand_short N). simpl. now rewrite app_nil_r.
Qed.

End Transmission.

(** An operation that sends its frame and then only waits shows the result,
    the frames and the wire bytes of the transmission itself. *)
Lemma settle_after (cmd : list Z) (ms : Z) (s : Script) :
  let op := (result <- sendCommand cmd ;; delay ms ;; ret result) in
  result_of op s = result_of (sendCommand cmd) s /\
  frames_of op s = frames_of (sendCommand cmd) s /\
  wire_of op s = wire_of (sendCommand cmd) s.
Proof.
  intros op. unfold op, frames_of, wire_of, events_of, result_of, bind.
  destruct (Nat.eq_dec (accepted s (length cmd)) (length cmd)) as [E | N].
  - rewrite (sendCommand_whole cmd s E). simpl. auto.
  - rewrite (sendCommand_short cmd s N). simpl. auto.
Qed.

Lemma bind_lift_some {A B} (a : A) (k : A -> M B) (s : Script) :
  bind (lift (Some a)) k s = k a s.
Proof.
  unfold bind, lift.
  destruct (k a s) as [[[b s2] ev2] |]; reflexivity.
Qed.

Lemma moveJog_defined (can_id : Z) (speed : F32.float) (flag v : Z) (s : Script) :
  speed_val speed = Some v ->
  moveJog can_id speed flag s =
  sendCommand [0x41; 0x54; 0x90; 0x07; 0xe8; can_id; 0x08; 0x05; 0x70;
               0x00; 0x00; 0x07; flag;
               Z.land (Z.shiftr v 8) 0xFF; Z.land v 0xFF; 0x0d; 0x0a] s.
Proof.
  intros Hv. unfold moveJog. rewrite Hv, bind_lift_some. reflexivity.
Qed.

Lemma moveJog_undefined (can_id : Z) (speed : F32.float) (flag : Z) (s : Script) :
  speed_val speed = None -> moveJog can_id speed flag s = None.
Proof.
  intros Hv. unfold moveJog. rewrite Hv. reflexivity.
Qed.

(** Every operation of the encoder performs exactly one transmission, of
    the frame it builds. *)
Lemma sends_transmission (op : M bool) (cmd : list Z) (s : Script) :
  sends op cmd ->
  result_of op s = result_of (sendCommand cmd) s /\
  frames_of op s = frames_of (sendCommand cmd) s /\
  wire_of op s = wire_of (sendCommand cmd) s.
Proof.
  intros H. destruct H as [cmd | can_id | can_id | can_id | can_id speed flag v Hv].
  - auto.
  - apply (settle_after _ 200 s).
  - apply (settle_after _ 100 s).
  - apply (settle_after _ 200 s).
  - unfold result_of, frames_of, wire_of, events_of.
    rewrite (moveJog_defined can_id speed flag v s Hv). auto.
Qed.

(** * Fixed frames *)

(** C4. For every motor id, [activateMotor], [deactivateMotor] and
    [loadParams] each hand one frame to the transport, of 10, 10 and 17
    bytes: marker 0x41 0x54, op-code, address 0x07 0xe8, the motor id, the
    data length, the payload and the terminator 0x0d 0x0a.  Only byte 5,
    the motor id, depends on the argument. *)
Theorem fixed_frames (can_id : Z) (s : Script) :
  frames_of (activateMotor can_id) s =
    Some [[0x41; 0x54; 0x00; 0x07; 0xe8; can_id; 0x01; 0x00; 0x0d; 0x0a]] /\
  frames_of (deactivateMotor can_id) s =
    Some [[0x41; 0x54; 0x00; 0x07; 0xe8; can_id; 0x00; 0x00; 0x0d; 0x0a]] /\
  frames_of (loadParams can_id) s =
    Some [[0x41; 0x54; 0x20; 0x07; 0xe8; can_id; 0x08; 0x00;
           0xc4; 0x00; 0x00; 0x00; 0x00; 0x00; 0x00; 0x0d; 0x0a]] /\
  frames_of (activateMotor can_id) s =
    Some [layout 0x00 can_id 0x01 [0x00]] /\
  frames_of (deactivateMotor can_id) s =
    Some [layout 0x00 can_id 0x00 [0x00]] /\
  frames_of (loadParams can_id) s =
    Some [layout 0x20 can_id 0x08 [0x00; 0xc4; 0x00; 0x00; 0x00; 0x00; 0x00; 0x00]] /\
  length (layout 0x00 can_id 0x01 [0x00]) = 10%nat /\
  length (layout 0x00 can_id 0x00 [0x00]) = 10%nat /\
  length (layout 0x20 can_id 0x08 [0x00; 0xc4; 0x00; 0x00; 0x00; 0x00; 0x00; 0x00]) = 17%nat.
Proof.
  pose proof (sends_transmission _ _ s (sends_activate can_id)) as (_ & Ha & _).
  pose proof (sends_transmission _ _ s (sends_deactivate can_id)) as (_ & Hd & _).
  pose proof (sends_transmission _ _ s (sends_load can_id)) as (_ & Hl & _).
  rewrite sendCommand_frames in Ha, Hd, Hl.
  unfold layout; simpl app.
  repeat split; assumption || reflexivity.
Qed.

(** C5, as the specification words it, fails: the seven payload bytes after the first
    are not all zero (the second one is 0xc4). *)
Lemma load_payload_tail_not_zero :
  ~ (forall can_id s, exists selector frame,
        frames_of (loadParams can_id) s = Some [frame] /\
        length frame = 17%nat /\
        payload_of 8 frame = selector :: repeat 0 7).
Proof.
  intros H. destruct (H 0x0C []) as (selector & frame & Hf & _ & Hp).
  vm_compute in Hf. injection Hf as <-.
  vm_compute in Hp. discriminate Hp.
Qed.

(** C5, amended. For every motor id the [loadParams] frame has 17 bytes;
    its 8-byte payload starts with a zero byte, carries the parameter-set
    selector 0xc4 as its second byte, and its remaining six bytes are
    zero. *)
Theorem load_payload (can_id : Z) (s : Script) :
  exists frame,
    frames_of (loadParams can_id) s = Some [frame] /\
    length frame = 17%nat /\
    nth 6 frame 0 = 8 /\
    payload_of 8 frame = 0x00 :: 0xc4 :: repeat 0 6.
Proof.
  pose proof (sends_transmission _ _ s (sends_load can_id)) as (_ & Hl & _).
  rewrite sendCommand_frames in Hl.
  eexists. split; [exact Hl |]. repeat split.
Qed.

(** * Transmission *)

(** C6. Whatever operation transmits a frame: when the transport accepts a
    number of bytes other than the frame length, the operation returns
    [false], the frame was handed to the transport once, and only the
    accepted bytes are on the wire; when the transport accepts the whole
    frame, the operation returns [true]. *)
Theorem short_write_fails (op : M bool) (cmd : list Z) (s : Script) :
  sends op cmd ->
  (accepted s (length cmd) <> length cmd ->
     result_of op s = Some false /\
     frames_of op s = Some [cmd] /\
     wire_of op s = Some (firstn (accepted s (length cmd)) cmd)) /\
  (accepted s (length cmd) = length cmd ->
     result_of op s = Some true /\
     wire_of op s = Some cmd).
Proof.
  intros Hop.
  destruct (sends_transmission op cmd s Hop) as (Hr & Hf & Hw).
  rewrite Hr, Hf, Hw, sendCommand_result, sendCommand_frames, sendCommand_wire.
  split; intros H.
  - apply Nat.eqb_neq in H. rewrite H. auto.
  - rewrite H, Nat.eqb_refl, firstn_all. auto.
Qed.

Lemma short_write_fails_witness :
  sends (activateMotor 0x0C)
    [0x41; 0x54; 0x00; 0x07; 0xe8; 0x0C; 0x01; 0x00; 0x0d; 0x0a] /\
  result_of (activateMotor 0x0C) [4%nat] = Some false /\
  wire_of (activateMotor 0x0C) [4%nat] = Some [0x41; 0x54; 0x00; 0x07] /\
  result_of (activateMotor 0x0C) [] = Some true.
Proof.
  split; [apply sends_activate |].
  pose proof (short_write_fails _ _ [4%nat] (sends_activate 0x0C)) as [Hs _].
  pose proof (short_write_fails _ _ [] (sends_activate 0x0C)) as [_ Hw].
  destruct Hs as (Hr & _ & Hb); [simpl; lia |].
  destruct Hw as (Hr' & _); [reflexivity |].
  repeat split; assumption.
Defined.

(** * Convenience operations *)

(** C9. [stopMotor id] is [moveJog id 0.0 0]; [moveMotor id speed] is
    [moveJog id speed flag] with flag 0 when the speed compares equal to
    zero and 1 otherwise; so [moveMotor id 0.0] and [stopMotor id] are the
    same operation, and both send the frame with flag 0 and speed code
    0x7fff. *)
Theorem convenience_operations (can_id : Z) (speed : F32.float) (s : Script) :
  stopMotor can_id s = moveJog can_id F32.zero 0 s /\
  moveMotor can_id speed s =
    moveJog can_id speed (if F32.eqb speed F32.zero then 0 else 1) s /\
  moveMotor can_id F32.zero s = stopMotor can_id s /\
  frames_of (moveMotor can_id F32.zero) s = frames_of (stopMotor can_id) s /\
  frames_of (stopMotor can_id) s =
    Some [[0x41; 0x54; 0x90; 0x07; 0xe8; can_id; 0x08; 0x05; 0x70;
           0x00; 0x00; 0x07; 0x00; 0x7f; 0xff; 0x0d; 0x0a]].
Proof.
  repeat split.
  unfold frames_of, events_of, stopMotor.
  rewrite (moveJog_defined can_id F32.zero 0 0x7fff s eq_refl).
  apply sendCommand_frames.
Qed.

(** * The command bridge *)

(** Within the array the echo loop reads the first [count] elements from
    [from]; a longer loop reads past the array. *)
Lemma echo_in_bounds (message : twai_message) (from count : nat) :
  (from + count <= TWAI_FRAME_MAX_DLC)%nat ->
  echo message from count =
  Some (map (fun i => nth i (data message) 0) (seq from count)).
Proof.
  revert from. induction count as [| count IH]; intros from H.
  - reflexivity.
  - cbn [echo seq map]. unfold data_at.
    destruct (Nat.ltb_spec from TWAI_FRAME_MAX_DLC) as [_ | C]; [| lia].
    rewrite IH by lia. reflexivity.
Qed.

Lemma echo_past_array (message : twai_message) (from count : nat) :
  (from <= TWAI_FRAME_MAX_DLC < from + count)%nat ->
  echo message from count = None.
Proof.
  revert from. induction count as [| count IH]; intros from H.
  - lia.
  - cbn [echo]. unfold data_at.
    destruct (Nat.ltb_spec from TWAI_FRAME_MAX_DLC) as [L | _]; [| reflexivity].
    rewrite IH by lia. reflexivity.
Qed.

Lemma echo_payload (message : twai_message) :
  data_length_code message <= 8 ->
  echo message 0 (Z.to_nat (data_length_code message)) =
  Some (payload_read message).
Proof.
  intros H. apply echo_in_bounds. unfold TWAI_FRAME_MAX_DLC. lia.
Qed.

(** A data length code above 8 makes the echo loop read past [data]: the
    bridge has no defined behaviour on such a frame. *)
Lemma bridge_overread (message : twai_message) (s : Script) :
  8 < data_length_code message ->
  processCANMessage (Some message) s = None.
Proof.
  intros H. unfold processCANMessage, bind.
  rewrite echo_past_array by (unfold TWAI_FRAME_MAX_DLC; lia).
  reflexivity.
Qed.

Lemma bridge_accepted (message : twai_message) (s : Script) :
  data_length_code message <= 8 ->
  accepts_frame message = true ->
  processCANMessage (Some message) s =
  (console (MsgCanRx (identifier message) (data_length_code message)
              (payload_read message)) ;;
   console (MsgMotorSpeed (Z.land (identifier message) 0x0F)
              (clamp (raw_speed (nth 0 (data message) 0)))) ;;
   moveMotor (Z.land (identifier message) 0x0F)
     (clamp (raw_speed (nth 0 (data message) 0))) ;;
   ret tt) s.
Proof.
  unfold accepts_frame, processCANMessage. intros Hd H.
  rewrite (echo_payload message Hd), bind_lift_some.
  unfold bind at 1 3. simpl. rewrite H. reflexivity.
Qed.

Lemma bridge_ignored (message : twai_message) (s : Script) :
  data_length_code message <= 8 ->
  accepts_frame message = false ->
  processCANMessage (Some message) s =
  Some (tt, s,
        [EvConsole (MsgCanRx (identifier message) (data_length_code message)
           (payload_read message))]).
Proof.
  unfold accepts_frame, processCANMessage. intros Hd H.
  rewrite (echo_payload message Hd), bind_lift_some.
  unfold bind. simpl. rewrite H. reflexivity.
Qed.

(** C8. A bus frame whose identifier's low nibble is none of 0x0C, 0x0D,
    0x0E, or whose payload is empty, is ignored (a bus frame carries at
    most 8 payload bytes): the bridge prints the received frame on the
    console and does nothing else; no frame reaches the motor link, no
    failure is reported and the transport is left as it was. *)
Theorem foreign_frame_ignored (message : twai_message) (s : Script) :
  let motor_id := Z.land (identifier message) 0x0F in
  data_length_code message <= 8 ->
  (motor_id <> 0x0C /\ motor_id <> 0x0D /\ motor_id <> 0x0E) \/
  data_length_code message < 1 ->
  exists evs,
    processCANMessage (Some message) s = Some (tt, s, evs) /\
    frames evs = [] /\ wire evs = [] /\ failures evs = [] /\
    evs = [EvConsole (MsgCanRx (identifier message) (data_length_code message)
             (payload_read message))].
Proof.
  intros motor_id Hd H.
  eexists. split; [apply bridge_ignored; [exact Hd |] | repeat split].
  unfold accepts_frame. fold motor_id.
  destruct H as [(H1 & H2 & H3) | H].
  - destruct (Z.leb_spec 0x0C motor_id), (Z.leb_spec motor_id 0x0E);
      simpl; try reflexivity; lia.
  - destruct (Z.leb_spec 1 (data_length_code message)); [lia |].
    now rewrite andb_false_r.
Qed.

Lemma foreign_frame_ignored_witness :
  exists evs,
    processCANMessage
      (Some {| identifier := 0x05; data_length_code := 1;
               data := [64; 0; 0; 0; 0; 0; 0; 0] |}) [] = Some (tt, [], evs) /\
    frames evs = [] /\ wire evs = [] /\ failures evs = [] /\
    evs = [EvConsole (MsgCanRx 0x05 1 [64])].
Proof.
  apply (foreign_frame_ignored
           {| identifier := 0x05; data_length_code := 1;
              data := [64; 0; 0; 0; 0; 0; 0; 0] |} []).
  - simpl. lia.
  - left. vm_compute. repeat split; discriminate.
Defined.

(** C1, on the code. Payload byte 0x80 is read as the unsigned value 128:
    the bridge clamps 128/127 to +1.0 and sends the full forward speed
    (code 0x8cd3), not -1.0. *)
Theorem bridge_byte_0x80 :
  processCANMessage
    (Some {| identifier := 0x0C; data_length_code := 1;
             data := [0x80; 0; 0; 0; 0; 0; 0; 0] |}) [] =
  Some (tt, [],
        [EvConsole (MsgCanRx 0x0C 1 [0x80]);
         EvConsole (MsgMotorSpeed 0x0C (F32.of_Z 1));
         EvFlush;
         EvWrite [0x41; 0x54; 0x90; 0x07; 0xe8; 0x0C; 0x08; 0x05; 0x70;
                  0x00; 0x00; 0x07; 0x01; 0x8c; 0xd3; 0x0d; 0x0a] 17;
         EvFlush; EvDelay 10]) /\
  clamp (raw_speed 0x80) = F32.of_Z 1 /\
  clamp (raw_speed 0x80) <> F32.of_Z (-1).
Proof.
  repeat split. vm_compute. discriminate.
Qed.

Lemma every_byte_speed_ok :
  forallb byte_speed_ok (map Z.of_nat (seq 0 256)) = true.
Proof. vm_compute. reflexivity. Qed.

Lemma byte_speed (b : Z) : 0 <= b < 256 -> byte_speed_ok b = true.
Proof.
  intros Hb.
  pose proof every_byte_speed_ok as H.
  rewrite forallb_forall in H. apply H.
  rewrite <- (Z2Nat.id b) by lia.
  apply in_map, in_seq. lia.
Qed.

(** C10. For every bus frame the bridge accepts (1 to 8 payload bytes),
    with payload byte 0 any [uint8_t] value, the bridge calls [moveMotor]
    with the clamped speed;
    the speed before the clamp lies between 0.0 and 255/127, the speed
    passed on between 0.0 and 1.0: it is never negative. *)
Theorem bridge_speed_nonnegative (message : twai_message) (s : Script) :
  let motor_id := Z.land (identifier message) 0x0F in
  let b := nth 0 (data message) 0 in
  let raw := raw_speed b in
  let speed := clamp raw in
  0x0C <= motor_id <= 0x0E ->
  1 <= data_length_code message <= 8 ->
  0 <= b < 256 ->
  processCANMessage (Some message) s =
    (console (MsgCanRx (identifier message) (data_length_code message)
                (payload_read message)) ;;
     console (MsgMotorSpeed motor_id speed) ;;
     moveMotor motor_id speed ;;
     ret tt) s /\
  F32.leb F32.zero raw = true /\
  F32.leb raw (F32.div (F32.of_Z 255) (F32.of_Z 127)) = true /\
  F32.leb F32.zero speed = true /\
  F32.leb speed (F32.of_Z 1) = true /\
  F32.ltb speed F32.zero = false.
Proof.
  intros motor_id b raw speed Hid Hdlc Hb.
  split.
  - apply bridge_accepted; [lia |]. unfold accepts_frame. fold motor_id.
    destruct (Z.leb_spec 0x0C motor_id), (Z.leb_spec motor_id 0x0E),
      (Z.leb_spec 1 (data_length_code message)); simpl; try reflexivity; lia.
  - pose proof (byte_speed b Hb) as H. unfold byte_speed_ok in H.
    fold raw in H. fold speed in H.
    repeat (apply andb_prop in H; destruct H as [H ?]).
    rewrite negb_true_iff in *. auto.
Qed.

Lemma bridge_speed_nonnegative_witness :
  processCANMessage
    (Some {| identifier := 0x1C; data_length_code := 1;
             data := [0xC0; 0; 0; 0; 0; 0; 0; 0] |}) [] =
    (console (MsgCanRx 0x1C 1 [0xC0]) ;;
     console (MsgMotorSpeed 0x0C (F32.of_Z 1)) ;;
     moveMotor 0x0C (F32.of_Z 1) ;;
     ret tt) [] /\
  F32.leb F32.zero (raw_speed 0xC0) = true /\
  F32.leb (raw_speed 0xC0) (F32.div (F32.of_Z 255) (F32.of_Z 127)) = true /\
  F32.leb F32.zero (clamp (raw_speed 0xC0)) = true /\
  F32.leb (clamp (raw_speed 0xC0)) (F32.of_Z 1) = true /\
  F32.ltb (clamp (raw_speed 0xC0)) F32.zero = false.
Proof.
  apply (bridge_speed_nonnegative
           {| identifier := 0x1C; data_length_code := 1;
              data := [0xC0; 0; 0; 0; 0; 0; 0; 0] |} []); simpl; lia.
Defined.

(** * The jog speed code at full speed *)

(** C2, as the specification words it, fails: the two speed bytes of
    [moveJog id 1.0 1] are not 0x80 0xcd. *)
Lemma jog_full_speed_not_0x80cd :
  frames_of (moveJog 0x0C (F32.of_Z 1) 1) [] <>
  Some [[0x41; 0x54; 0x90; 0x07; 0xe8; 0x0C; 0x08; 0x05; 0x70;
         0x00; 0x00; 0x07; 0x01; 0x80; 0xcd; 0x0d; 0x0a]].
Proof. vm_compute. discriminate. Qed.

(** C2, amended. For every motor id, [moveJog id 1.0 1] sends the speed
    code 0x8cd3 = 0x8000 + 3283 and [moveJog id (-1.0) 1] the speed code
    0x732c = 0x7fff - 3283, high byte first, as the last two bytes before
    the terminator. *)
Theorem jog_full_speed_codes (can_id : Z) (s : Script) :
  frames_of (moveJog can_id (F32.of_Z 1) 1) s =
    Some [[0x41; 0x54; 0x90; 0x07; 0xe8; can_id; 0x08; 0x05; 0x70;
           0x00; 0x00; 0x07; 0x01; 0x8c; 0xd3; 0x0d; 0x0a]] /\
  frames_of (moveJog can_id (F32.of_Z (-1)) 1) s =
    Some [[0x41; 0x54; 0x90; 0x07; 0xe8; can_id; 0x08; 0x05; 0x70;
           0x00; 0x00; 0x07; 0x01; 0x73; 0x2c; 0x0d; 0x0a]] /\
  option_map code16 (speed_val (F32.of_Z 1)) = Some (0x8000 + 3283) /\
  option_map code16 (speed_val (F32.of_Z (-1))) = Some (0x7fff - 3283) /\
  0x8c * 256 + 0xd3 = 0x8000 + 3283 /\
  0x73 * 256 + 0x2c = 0x7fff - 3283.
Proof.
  assert (Hp : speed_val (F32.of_Z 1) = Some (-29485)) by (vm_compute; reflexivity).
  assert (Hn : speed_val (F32.of_Z (-1)) = Some 29484) by (vm_compute; reflexivity).
  unfold frames_of, events_of.
  rewrite (moveJog_defined can_id _ 1 _ s Hp), (moveJog_defined can_id _ 1 _ s Hn).
  rewrite Hp, Hn.
  pose proof (sendCommand_frames) as F. unfold frames_of, events_of in F.
  rewrite !F. repeat split.
Qed.

(** * Rounding of the single-precision product *)

(** ** Binary digits *)

Lemma digits2_pos_bounds (p : positive) :
  2 ^ (Zpos (digits2_pos p) - 1) <= Zpos p < 2 ^ Zpos (digits2_pos p).
Proof.
  induction p as [p IH | p IH |]; simpl digits2_pos.
  - rewrite Pos2Z.inj_succ.
    replace (Z.succ (Zpos (digits2_pos p)) - 1) with (Z.succ (Zpos (digits2_pos p) - 1)) by lia.
    rewrite !Z.pow_succ_r by lia. lia.
  - rewrite Pos2Z.inj_succ.
    replace (Z.succ (Zpos (digits2_pos p)) - 1) with (Z.succ (Zpos (digits2_pos p) - 1)) by lia.
    rewrite !Z.pow_succ_r by lia. lia.
  - simpl. lia.
Qed.

Lemma Zdigits2_bounds (x : Z) :
  0 < x -> 2 ^ (Zdigits2 x - 1) <= x < 2 ^ Zdigits2 x.
Proof.
  destruct x as [| p | p]; try lia. intros _. apply digits2_pos_bounds.
Qed.

Lemma Zdigits2_pos (x : Z) : 0 < x -> 0 < Zdigits2 x.
Proof. destruct x; simpl; lia. Qed.

(** The number of digits is fixed by the binade. *)
Lemma Zdigits2_unique (x d : Z) :
  2 ^ (d - 1) <= x < 2 ^ d -> 0 < x -> Zdigits2 x = d.
Proof.
  intros [Hl Hu] Hx.
  pose proof (Zdigits2_bounds x Hx) as [Hl' Hu'].
  pose proof (Zdigits2_pos x Hx) as Hd.
  assert (0 < d).
  { destruct (Z.lt_trichotomy d 0) as [N | [Z0 | P]]; [| | exact P].
    - rewrite Z.pow_neg_r in Hu by lia. lia.
    - subst d. simpl in Hu. lia. }
  destruct (Z.lt_trichotomy (Zdigits2 x) d) as [Hlt | [Heq | Hgt]]; [| assumption |].
  - assert (2 ^ Zdigits2 x <= 2 ^ (d - 1)) by (apply Z.pow_le_mono_r; lia). lia.
  - assert (2 ^ d <= 2 ^ (Zdigits2 x - 1)) by (apply Z.pow_le_mono_r; lia). lia.
Qed.

Lemma Zdigits2_mono (x y : Z) : 0 < x <= y -> Zdigits2 x <= Zdigits2 y.
Proof.
  intros [Hx Hxy].
  pose proof (Zdigits2_bounds x Hx) as [Hl _].
  pose proof (Zdigits2_bounds y ltac:(lia)) as [_ Hu].
  destruct (Z.le_gt_cases (Zdigits2 x) (Zdigits2 y)) as [| Hgt]; [assumption |].
  assert (2 ^ Zdigits2 y <= 2 ^ (Zdigits2 x - 1)) by (apply Z.pow_le_mono_r; lia).
  lia.
Qed.

(** ** Right shifts with round and sticky bits *)

Lemma iter_pos_nat {A} (f : A -> A) (n : positive) (x : A) :
  iter_pos f n x = Nat.iter (Pos.to_nat n) f x.
Proof.
  revert x. induction n as [n IH | n IH |]; intros x; simpl iter_pos.
  - rewrite !IH, Pos2Nat.inj_xI.
    change (f x) with (Nat.iter 1 f x).
    rewrite <- !Nat.iter_add. f_equal. lia.
  - rewrite !IH, Pos2Nat.inj_xO, <- Nat.iter_add. f_equal. lia.
  - reflexivity.
Qed.

Lemma shifted_0 (M : Z) :
  0 <= M -> shifted M 0 {| shr_m := M; shr_r := false; shr_s := false |}.
Proof.
  intros HM. exists 0. simpl. repeat split; try lia; try discriminate.
Qed.

Lemma shifted_step (M : Z) (k : nat) (mrs : shr_record) :
  shifted M k mrs -> shifted M (S k) (shr_1 mrs).
Proof.
  intros (rem & Hm & Hrem & HM & Hr & Hs).
  unfold shifted. rewrite Nat2Z.inj_succ, Z.pow_succ_r by lia.
  set (P := 2 ^ Z.of_nat k) in *.
  destruct mrs as [m r s]. cbn [shr_m shr_r shr_s] in *.
  assert (HP : 0 < P) by (apply Z.pow_pos_nonneg; lia).
  assert (Hrs : orb r s = true <-> rem <> 0).
  { rewrite orb_true_iff, Hr, Hs. lia. }
  destruct m as [| [p | p |] | p]; try lia; cbn [shr_1 shr_m shr_r shr_s].
  - exists rem. cbn [shr_m shr_r shr_s]. rewrite Hrs.
    repeat split; try lia; try discriminate.
  - exists (P + rem). cbn [shr_m shr_r shr_s]. rewrite Hrs.
    repeat split; try lia.
  - exists rem. cbn [shr_m shr_r shr_s]. rewrite Hrs.
    repeat split; try lia; try discriminate.
  - exists (P + rem). cbn [shr_m shr_r shr_s]. rewrite Hrs.
    repeat split; try lia.
Qed.

Lemma shifted_iter (M : Z) (k : nat) :
  0 <= M ->
  shifted M k (Nat.iter k shr_1 {| shr_m := M; shr_r := false; shr_s := false |}).
Proof.
  intros HM. induction k as [| k IH].
  - now apply shifted_0.
  - simpl Nat.iter. now apply shifted_step.
Qed.

Lemma shifted_round (M : Z) (k : nat) (mrs : shr_record) :
  shifted M k mrs ->
  round_nearest_even (shr_m mrs) (loc_of_shr_record mrs) = rne M (Z.of_nat k).
Proof.
  intros (rem & Hm & Hrem & HM & Hr & Hs).
  assert (HP : 0 < 2 ^ Z.of_nat k) by (apply Z.pow_pos_nonneg; lia).
  assert (Hq : M / 2 ^ Z.of_nat k = shr_m mrs).
  { symmetry. apply (Z.div_unique_pos _ _ _ rem); lia. }
  assert (Hrm : M mod 2 ^ Z.of_nat k = rem).
  { symmetry. apply (Z.mod_unique_pos _ _ (shr_m mrs)); lia. }
  unfold rne. cbv zeta. rewrite Hq, Hrm.
  destruct mrs as [m r s].
  cbn [shr_m shr_r shr_s loc_of_shr_record round_nearest_even] in *.
  destruct (Z.ltb_spec (2 * rem) (2 ^ Z.of_nat k)) as [Hlt | Hge].
  - destruct r.
    + assert (2 ^ Z.of_nat k <= 2 * rem) by now apply Hr. lia.
    + destruct s; reflexivity.
  - destruct r; [| assert (false = true) by (apply Hr; lia); discriminate].
    destruct (Z.eqb_spec (2 * rem) (2 ^ Z.of_nat k)) as [Heq | Hne].
    + destruct s; [| reflexivity].
      assert (2 * rem <> 2 ^ Z.of_nat k) by now apply Hs. lia.
    + destruct s; [reflexivity |].
      assert (false = true) by (apply Hs; lia). discriminate.
Qed.

(** The first rounding step of [binary_round_aux] on an exact mantissa. *)
Lemma shr_round (M e n : Z) :
  0 <= M -> 0 <= n ->
  let '(mrs, e') := shr (shr_record_of_loc M loc_Exact) e n in
  round_nearest_even (shr_m mrs) (loc_of_shr_record mrs) = rne M n /\
  e' = e + n.
Proof.
  intros HM Hn. destruct n as [| p | p]; try lia; simpl.
  - unfold rne. simpl. rewrite Z.mod_1_r, Z.div_1_r. simpl. split; [reflexivity | lia].
  - rewrite iter_pos_nat. split; [| reflexivity].
    rewrite (shifted_round M (Pos.to_nat p)).
    + now rewrite positive_nat_Z.
    + now apply shifted_iter.
Qed.


(** ** Properties of the rounding *)

Lemma pow2_pos (n : Z) : 0 <= n -> 0 < 2 ^ n.
Proof. intros. apply Z.pow_pos_nonneg; lia. Qed.

Lemma rne_bounds (M n : Z) :
  0 <= n -> M / 2 ^ n <= rne M n <= M / 2 ^ n + 1.
Proof.
  intros Hn. unfold rne. cbv zeta.
  destruct (_ <? _); [lia |].
  destruct (_ =? _); [destruct (Z.even _) |]; lia.
Qed.

(** Rounding is monotone at a fixed position. *)
Lemma rne_mono (M1 M2 n : Z) :
  0 <= n -> M1 <= M2 -> rne M1 n <= rne M2 n.
Proof.
  intros Hn HM.
  pose proof (pow2_pos n Hn) as HP.
  pose proof (rne_bounds M1 n Hn) as B1.
  pose proof (rne_bounds M2 n Hn) as B2.
  assert (Hq : M1 / 2 ^ n <= M2 / 2 ^ n) by (apply Z.div_le_mono; lia).
  destruct (Z.eq_dec (M1 / 2 ^ n) (M2 / 2 ^ n)) as [E | N]; [| lia].
  assert (Hr : M1 mod 2 ^ n <= M2 mod 2 ^ n).
  { pose proof (Z.div_mod M1 (2 ^ n) ltac:(lia)).
    pose proof (Z.div_mod M2 (2 ^ n) ltac:(lia)).
    rewrite E in *. lia. }
  unfold rne. cbv zeta. rewrite E.
  set (q := M2 / 2 ^ n). set (r1 := M1 mod 2 ^ n) in *. set (r2 := M2 mod 2 ^ n) in *.
  set (P := 2 ^ n) in *.
  destruct (Z.ltb_spec (2 * r1) P), (Z.ltb_spec (2 * r2) P);
    destruct (Z.eqb_spec (2 * r1) P), (Z.eqb_spec (2 * r2) P);
    destruct (Z.even q); lia.
Qed.

(** A power of two that lies above [M] also lies above its rounding, and
    one that lies below also lies below. *)
Lemma rne_below_pow (M n d : Z) :
  0 <= n <= d -> 0 <= M < 2 ^ d -> rne M n * 2 ^ n <= 2 ^ d.
Proof.
  intros [Hn Hd] [HM Hlt].
  pose proof (pow2_pos n Hn) as HP.
  pose proof (rne_bounds M n Hn) as [_ B].
  replace d with ((d - n) + n) in Hlt |- * by lia.
  rewrite Z.pow_add_r in Hlt |- * by lia.
  assert (M / 2 ^ n < 2 ^ (d - n)) by (apply Z.div_lt_upper_bound; lia).
  apply Z.mul_le_mono_nonneg_r; lia.
Qed.

Lemma rne_above_pow (M n d : Z) :
  0 <= n <= d -> 2 ^ d <= M -> 2 ^ d <= rne M n * 2 ^ n.
Proof.
  intros [Hn Hd] HM.
  pose proof (pow2_pos n Hn) as HP.
  pose proof (rne_bounds M n Hn) as [B _].
  replace d with ((d - n) + n) in HM |- * by lia.
  rewrite Z.pow_add_r in HM |- * by lia.
  assert (2 ^ (d - n) <= M / 2 ^ n) by (apply Z.div_le_lower_bound; lia).
  apply Z.mul_le_mono_nonneg_r; lia.
Qed.

(** Scaling the mantissa by a power of two shifts the rounding position. *)
Lemma rne_scale (M n k : Z) :
  0 <= n -> 0 <= k -> rne (M * 2 ^ k) (n + k) = rne M n.
Proof.
  intros Hn Hk.
  pose proof (pow2_pos n Hn) as HP. pose proof (pow2_pos k Hk) as HK.
  unfold rne. cbv zeta.
  rewrite Z.pow_add_r by lia.
  rewrite Z.div_mul_cancel_r by lia.
  rewrite Z.mul_mod_distr_r by lia.
  set (q := M / 2 ^ n). set (r := M mod 2 ^ n).
  destruct (Z.ltb_spec (2 * r) (2 ^ n)), (Z.ltb_spec (2 * (r * 2 ^ k)) (2 ^ n * 2 ^ k));
    try nia; try reflexivity.
  destruct (Z.eqb_spec (2 * r) (2 ^ n)), (Z.eqb_spec (2 * (r * 2 ^ k)) (2 ^ n * 2 ^ k));
    try nia; reflexivity.
Qed.

Lemma Zdigits2_scale (M k : Z) :
  0 < M -> 0 <= k -> Zdigits2 (M * 2 ^ k) = Zdigits2 M + k.
Proof.
  intros HM Hk.
  pose proof (pow2_pos k Hk) as HK.
  pose proof (Zdigits2_bounds M HM) as [Hl Hu].
  pose proof (Zdigits2_pos M HM) as Hd.
  apply Zdigits2_unique; [| nia].
  replace (Zdigits2 M + k - 1) with ((Zdigits2 M - 1) + k) by lia.
  rewrite !Z.pow_add_r by lia. nia.
Qed.

Lemma pos_mono (X1 X2 : Z) : 0 < X1 <= X2 -> 12 <= pos X1 <= pos X2.
Proof.
  intros H. pose proof (Zdigits2_mono X1 X2 H). unfold pos. lia.
Qed.

Lemma rounded_mono (X1 X2 : Z) :
  0 < X1 <= X2 -> rounded X1 <= rounded X2.
Proof.
  intros H. pose proof (pos_mono X1 X2 H) as [Hp1 Hp].
  unfold rounded.
  destruct (Z.eq_dec (pos X1) (pos X2)) as [E | N].
  - rewrite E. apply Z.mul_le_mono_nonneg_r; [apply Z.lt_le_incl, pow2_pos; lia |].
    apply rne_mono; lia.
  - assert (Hd : pos X2 = Zdigits2 X2 - 24) by (unfold pos in *; lia).
    pose proof (Zdigits2_bounds X1 ltac:(lia)) as [_ Hu1].
    pose proof (Zdigits2_bounds X2 ltac:(lia)) as [Hl2 _].
    pose proof (Zdigits2_mono X1 X2 H) as Hm.
    set (d := Z.max (Zdigits2 X1) (pos X1)).
    assert (Hd1 : X1 < 2 ^ d).
    { eapply Z.lt_le_trans; [exact Hu1 |]. apply Z.pow_le_mono_r; lia. }
    transitivity (2 ^ d).
    + apply rne_below_pow; lia.
    + transitivity (2 ^ (Zdigits2 X2 - 1)).
      * apply Z.pow_le_mono_r; unfold pos in *; lia.
      * apply rne_above_pow; lia.
Qed.

(** ** [binary_round_aux] on an exact product *)

Lemma fexp_ge_emin (x : Z) : -149 <= fexp F32.prec F32.emax x.
Proof. unfold fexp, emin, F32.prec, F32.emax. lia. Qed.

Lemma small_digits (q : Z) : 0 < q < 2 ^ 24 -> Zdigits2 q <= 24.
Proof.
  intros [Hq Hlt]. pose proof (Zdigits2_bounds q Hq) as [Hl _].
  destruct (Z.le_gt_cases (Zdigits2 q) 24) as [| Hgt]; [assumption |].
  assert (2 ^ 24 <= 2 ^ (Zdigits2 q - 1)) by (apply Z.pow_le_mono_r; lia). lia.
Qed.

(** Rounding the exact value [M * 2^e0] to single precision and
    truncating the result to an integer, when the result is below 1/2 in
    exponent terms ([E <= -2]): the significand is cut at [E], rounded to
    even, and the integer part of that is kept. *)
Lemma round_exact_trunc (s : bool) (M e0 : Z) :
  let E := fexp F32.prec F32.emax (Zdigits2 M + e0) in
  0 < M -> e0 <= E -> E <= -2 ->
  F32.trunc (binary_round_aux F32.prec F32.emax s M e0 loc_Exact) =
  Some (cond_Zopp s (rne M (E - e0) / 2 ^ (- E))).
Proof.
  intros E HM He0 HE.
  pose proof (fexp_ge_emin (Zdigits2 M + e0)) as Hmin. fold E in Hmin.
  unfold binary_round_aux, shr_fexp at 1. fold E.
  pose proof (shr_round M e0 (E - e0) ltac:(lia) ltac:(lia)) as Hs1.
  destruct (shr (shr_record_of_loc M loc_Exact) e0 (E - e0)) as [mrs e'].
  destruct Hs1 as [Hq He']. rewrite Hq. subst e'.
  replace (e0 + (E - e0)) with E by lia.
  set (q := rne M (E - e0)).
  (* the significand has at most 24 bits, or is exactly 2^24 *)
  assert (Hqb : 0 <= q <= 2 ^ 24).
  { pose proof (rne_bounds M (E - e0) ltac:(lia)) as [B1 B2]. fold q in B1, B2.
    pose proof (pow2_pos (E - e0) ltac:(lia)) as HP.
    pose proof (Zdigits2_bounds M HM) as [_ Hu].
    assert (Hd : Zdigits2 M <= 24 + (E - e0)).
    { unfold E, fexp, F32.prec. lia. }
    assert (M < 2 ^ 24 * 2 ^ (E - e0)).
    { rewrite <- Z.pow_add_r by lia.
      eapply Z.lt_le_trans; [exact Hu |]. apply Z.pow_le_mono_r; lia. }
    assert (M / 2 ^ (E - e0) < 2 ^ 24) by (apply Z.div_lt_upper_bound; lia).
    assert (0 <= M / 2 ^ (E - e0)) by (apply Z.div_pos; lia).
    lia. }
  destruct (Z.eq_dec q 0) as [Hz | Hnz].
  - rewrite Hz. unfold shr_fexp. simpl Zdigits2.
    assert (Hn : fexp F32.prec F32.emax (0 + E) - E <= 0)
      by (unfold fexp, emin, F32.prec, F32.emax; lia).
    destruct (fexp F32.prec F32.emax (0 + E) - E) as [| n | n]; try lia;
      simpl; now destruct s.
  - destruct (Z.eq_dec q (2 ^ 24)) as [Htop | Hlow].
    + rewrite Htop. unfold shr_fexp. simpl Zdigits2.
      replace (fexp F32.prec F32.emax (25 + E) - E) with 1
        by (unfold fexp, emin, F32.prec, F32.emax; lia).
      cbn [shr iter_pos shr_record_of_loc]. simpl shr_1. cbn [shr_m].
      replace (E + 1 <=? F32.emax - F32.prec) with true
        by (symmetry; apply Z.leb_le; unfold F32.emax, F32.prec; lia).
      cbn [F32.trunc]. do 2 f_equal. unfold F32.trunc_mag.
      destruct (Z.leb_spec 0 (E + 1)) as [H0 | H0].
      * lia.
      * replace (- E) with (1 + (- (E + 1))) by lia.
        rewrite Z.pow_add_r by lia.
        change (2 ^ 24) with (2 ^ 1 * 8388608).
        pose proof (pow2_pos (- (E + 1)) ltac:(lia)).
        rewrite Z.div_mul_cancel_l by lia. reflexivity.
    + assert (Hq' : 0 < q < 2 ^ 24) by lia.
      pose proof (small_digits q Hq') as Hdq.
      unfold shr_fexp.
      assert (Hn : fexp F32.prec F32.emax (Zdigits2 q + E) - E <= 0)
        by (unfold fexp, emin, F32.prec, F32.emax; lia).
      destruct q as [| p | p]; try lia.
      replace (shr (shr_record_of_loc (Z.pos p) loc_Exact) E
                 (fexp F32.prec F32.emax (Zdigits2 (Z.pos p) + E) - E))
        with ({| shr_m := Z.pos p; shr_r := false; shr_s := false |}, E)
        by (destruct (fexp F32.prec F32.emax (Zdigits2 (Z.pos p) + E) - E);
            try lia; reflexivity).
      cbn [shr_m].
      replace (E <=? F32.emax - F32.prec) with true
        by (symmetry; apply Z.leb_le; unfold F32.emax, F32.prec; lia).
      cbn [F32.trunc]. do 2 f_equal. unfold F32.trunc_mag.
      destruct (Z.leb_spec 0 E); [lia | reflexivity].
Qed.

(** ** Well-formed single-precision numbers, in units of 2^-161 *)

Lemma bounded_facts (m : positive) (e : Z) :
  bounded F32.prec F32.emax m e = true ->
  -149 <= e <= 104 /\ Zpos m < 2 ^ 24 /\ (-149 < e -> 2 ^ 23 <= Zpos m).
Proof.
  unfold bounded, canonical_mantissa, fexp, emin, F32.prec, F32.emax.
  intros H. apply andb_prop in H. destruct H as [Hc He].
  apply Z.eqb_eq in Hc. apply Z.leb_le in He.
  pose proof (digits2_pos_bounds m) as [Hl Hu].
  set (d := Zpos (digits2_pos m)) in *.
  assert (Hd : 0 < d) by (unfold d; lia).
  destruct (Z.max_spec (d + e - 24) (3 - 128 - 24)) as [[Hlt Hmax] | [Hge Hmax]];
    rewrite Hmax in Hc.
  - assert (d <= 24) by lia.
    assert (2 ^ d <= 2 ^ 24) by (apply Z.pow_le_mono_r; lia).
    repeat split; lia.
  - assert (d = 24) by lia.
    replace d with 24 in * by lia.
    change (24 - 1) with 23 in Hl. repeat split; lia.
Qed.

Lemma units_pos (m : positive) (e : Z) : -149 <= e -> 0 < units m e.
Proof.
  intros He. unfold units.
  pose proof (pow2_pos (e + 149) ltac:(lia)). nia.
Qed.

(** The order of well-formed numbers is the order of their units. *)
Lemma units_lt (m1 : positive) (e1 : Z) (m2 : positive) (e2 : Z) :
  bounded F32.prec F32.emax m1 e1 = true ->
  bounded F32.prec F32.emax m2 e2 = true ->
  e1 < e2 -> units m1 e1 < units m2 e2.
Proof.
  intros H1 H2 He.
  destruct (bounded_facts m1 e1 H1) as (Hr1 & Hm1 & _).
  destruct (bounded_facts m2 e2 H2) as (Hr2 & _ & Hm2).
  specialize (Hm2 ltac:(lia)).
  unfold units.
  pose proof (pow2_pos (e1 + 149) ltac:(lia)) as HP.
  replace (e2 + 149) with ((e2 - e1 - 1) + 1 + (e1 + 149)) by lia.
  rewrite (Z.pow_add_r 2 (e2 - e1 - 1 + 1) (e1 + 149)) by lia.
  rewrite (Z.pow_add_r 2 (e2 - e1 - 1) 1) by lia.
  pose proof (pow2_pos (e2 - e1 - 1) ltac:(lia)) as HQ.
  change (2 ^ 1) with 2. change (2 ^ 24) with 16777216 in Hm1.
  change (2 ^ 23) with 8388608 in Hm2.
  set (P := 2 ^ (e1 + 149)) in *. set (Q := 2 ^ (e2 - e1 - 1)) in *.
  assert (Z.pos m1 * 13447168 < 16777216 * 13447168) by lia.
  assert (16777216 * 13447168 <= Z.pos m2 * 13447168 * (Q * 2)) by nia.
  nia.
Qed.

Lemma compare_mag (m1 : positive) (e1 : Z) (m2 : positive) (e2 : Z) :
  bounded F32.prec F32.emax m1 e1 = true ->
  bounded F32.prec F32.emax m2 e2 = true ->
  match e1 ?= e2 with
  | Lt => Lt
  | Gt => Gt
  | Eq => Pos.compare_cont Eq m1 m2
  end = (units m1 e1 ?= units m2 e2).
Proof.
  intros H1 H2. symmetry.
  destruct (Z.compare_spec e1 e2) as [E | L | G].
  - subst e2. unfold units.
    destruct (bounded_facts m1 e1 H1) as (Hr1 & _ & _).
    pose proof (pow2_pos (e1 + 149) ltac:(lia)) as HP.
    change (Pos.compare_cont Eq m1 m2) with (Z.pos m1 ?= Z.pos m2).
    destruct (Z.compare_spec (Z.pos m1) (Z.pos m2)) as [E | L | G].
    + rewrite E. apply Z.compare_refl.
    + apply Z.compare_lt_iff. nia.
    + apply Z.compare_gt_iff. nia.
  - apply Z.compare_lt_iff. now apply units_lt.
  - apply Z.compare_gt_iff. now apply units_lt.
Qed.

Lemma compare_value (x y : F32.float) (a b : Z) :
  F32.valid x = true -> F32.valid y = true ->
  value x = Some a -> value y = Some b ->
  SFcompare x y = Some (a ?= b).
Proof.
  intros Vx Vy Hx Hy.
  destruct x as [sx | sx | | sx mx ex]; try discriminate;
    destruct y as [sy | sy | | sy my ey]; try discriminate;
    cbn [value] in Hx, Hy; injection Hx as <-; injection Hy as <-;
    unfold F32.valid, valid_binary in Vx, Vy.
  - reflexivity.
  - destruct (bounded_facts my ey Vy) as (Hr & _ & _).
    pose proof (units_pos my ey ltac:(lia)).
    cbn [SFcompare]. f_equal. symmetry. destruct sy; cbn [cond_Zopp].
    + apply Z.compare_gt_iff. lia.
    + apply Z.compare_lt_iff. lia.
  - destruct (bounded_facts mx ex Vx) as (Hr & _ & _).
    pose proof (units_pos mx ex ltac:(lia)).
    cbn [SFcompare]. f_equal. symmetry. destruct sx; cbn [cond_Zopp].
    + apply Z.compare_lt_iff. lia.
    + apply Z.compare_gt_iff. lia.
  - destruct (bounded_facts mx ex Vx) as (Hrx & _ & _).
    destruct (bounded_facts my ey Vy) as (Hry & _ & _).
    pose proof (units_pos mx ex ltac:(lia)).
    pose proof (units_pos my ey ltac:(lia)).
    pose proof (compare_mag mx ex my ey Vx Vy) as C.
    cbn [SFcompare]. f_equal.
    destruct sx, sy; cbn [cond_Zopp].
    + rewrite Z.compare_opp, (Z.compare_antisym (units mx ex) (units my ey)), <- C.
      destruct (ex ?= ey); reflexivity.
    + symmetry. apply Z.compare_lt_iff. lia.
    + symmetry. apply Z.compare_gt_iff. lia.
    + exact C.
Qed.

(** ** The product [speed * 3283.0f], truncated *)

Lemma ticks_mono (X1 X2 : Z) : 0 < X1 <= X2 -> ticks X1 <= ticks X2.
Proof.
  intros H. unfold ticks.
  apply Z.div_le_mono; [apply pow2_pos; lia | now apply rounded_mono].
Qed.

Lemma ticks_nonneg (X : Z) : 0 < X -> 0 <= ticks X.
Proof.
  intros H. unfold ticks, rounded.
  pose proof (rne_bounds X (pos X) ltac:(unfold pos; lia)) as [B _].
  pose proof (pow2_pos (pos X) ltac:(unfold pos; lia)).
  assert (0 <= X / 2 ^ pos X) by (apply Z.div_pos; lia).
  apply Z.div_pos; [nia | apply pow2_pos; lia].
Qed.

Lemma one_bits : F32.of_Z 1 = S754_finite false 8388608 (-23).
Proof. reflexivity. Qed.

Lemma minus_one_bits : F32.of_Z (-1) = S754_finite true 8388608 (-23).
Proof. reflexivity. Qed.

Lemma scale_bits : SCALE = S754_finite false 13447168 (-12).
Proof. reflexivity. Qed.

Lemma ticks_full : ticks full = 3283.
Proof. vm_compute. reflexivity. Qed.

Lemma one_bounded : bounded F32.prec F32.emax 8388608 (-23) = true.
Proof. reflexivity. Qed.

Lemma small_exponent (m : positive) (e : Z) :
  bounded F32.prec F32.emax m e = true -> units m e <= full -> e <= -23.
Proof.
  intros Hb Hu.
  destruct (Z.le_gt_cases e (-23)) as [| Hgt]; [assumption |].
  pose proof (units_lt 8388608 (-23) m e one_bounded Hb ltac:(lia)).
  unfold full in Hu. lia.
Qed.

Lemma mul_scale (s : bool) (m : positive) (e : Z) :
  F32.mul (S754_finite s m e) SCALE =
  binary_round_aux F32.prec F32.emax s (Zpos m * 13447168) (e + -12) loc_Exact.
Proof.
  rewrite scale_bits. unfold F32.mul. cbn [SFmul].
  now rewrite xorb_false_r, Pos2Z.inj_mul.
Qed.

Lemma product_digits (m : positive) :
  Zpos m < 2 ^ 24 -> 24 <= Zdigits2 (Zpos m * 13447168) <= 48.
Proof.
  intros Hm.
  pose proof (Zdigits2_bounds (Zpos m * 13447168) ltac:(lia)) as [Hl Hu].
  set (d := Zdigits2 (Zpos m * 13447168)) in *.
  split.
  - destruct (Z.le_gt_cases 24 d) as [| Hlt]; [assumption |].
    assert (2 ^ d <= 2 ^ 23) by (apply Z.pow_le_mono_r; lia).
    change (2 ^ 23) with 8388608 in *. lia.
  - destruct (Z.le_gt_cases d 48) as [| Hgt]; [assumption |].
    assert (2 ^ 48 <= 2 ^ (d - 1)) by (apply Z.pow_le_mono_r; lia).
    change (2 ^ 48) with (16777216 * 16777216) in *.
    change (2 ^ 24) with 16777216 in *. nia.
Qed.

(** The conversion [(int16_t)(speed * 3283.0f)] sees the integer part of
    the rounded product, with the sign of the speed. *)
Lemma mul_ticks (s : bool) (m : positive) (e : Z) :
  bounded F32.prec F32.emax m e = true ->
  units m e <= full ->
  F32.trunc (F32.mul (S754_finite s m e) SCALE) =
  Some (cond_Zopp s (ticks (units m e))).
Proof.
  intros Hb Hu.
  pose proof (small_exponent m e Hb Hu) as He.
  destruct (bounded_facts m e Hb) as (Hr & Hm & _).
  pose proof (product_digits m Hm) as Hd.
  rewrite mul_scale.
  set (M := Zpos m * 13447168) in *.
  set (E := fexp F32.prec F32.emax (Zdigits2 M + (e + -12))).
  assert (HE : E = Z.max (Zdigits2 M + e - 36) (-149))
    by (unfold E, fexp, emin, F32.prec, F32.emax; lia).
  rewrite (round_exact_trunc s M (e + -12)); fold E; try lia.
  do 2 f_equal.
  unfold ticks, rounded, units. fold M.
  assert (Hp : pos (M * 2 ^ (e + 149)) = E + 161).
  { unfold pos. rewrite Zdigits2_scale by lia. lia. }
  rewrite Hp.
  replace (E + 161) with ((E - (e + -12)) + (e + 149)) at 1 by lia.
  rewrite rne_scale by lia.
  replace 161 with (- E + (E + 161)) at 2 by lia.
  rewrite (Z.pow_add_r 2 (- E) (E + 161)) by lia.
  pose proof (pow2_pos (- E) ltac:(lia)).
  pose proof (pow2_pos (E + 161) ltac:(lia)).
  now rewrite Z.div_mul_cancel_r by lia.
Qed.

Lemma ticks_range (m : positive) (e : Z) :
  bounded F32.prec F32.emax m e = true ->
  units m e <= full ->
  0 <= ticks (units m e) <= 3283.
Proof.
  intros Hb Hu.
  destruct (bounded_facts m e Hb) as (Hr & _ & _).
  pose proof (units_pos m e ltac:(lia)) as Hp.
  split; [now apply ticks_nonneg |].
  rewrite <- ticks_full. apply ticks_mono. lia.
Qed.

(** * The jog speed code over the whole range *)

Section SpeedRange.

Variable speed : F32.float.
Hypothesis Hvalid : F32.valid speed = true.
Hypothesis Hlow : F32.leb (F32.of_Z (-1)) speed = true.
Hypothesis Hhigh : F32.leb speed (F32.of_Z 1) = true.

(** A speed in [-1.0, 1.0] is a zero or a finite number of magnitude at
    most 1. *)
Lemma in_range_cases :
  (exists s, speed = S754_zero s) \/
  (exists s m e, speed = S754_finite s m e /\
                 bounded F32.prec F32.emax m e = true /\
                 units m e <= full).
Proof.
  destruct speed as [s | s | | s m e].
  - left. now exists s.
  - destruct s; discriminate.
  - discriminate.
  - right. exists s, m, e. split; [reflexivity |]. split; [exact Hvalid |].
    unfold F32.leb, SFleb in Hlow, Hhigh.
    destruct s.
    + rewrite (compare_value (F32.of_Z (-1)) (S754_finite true m e)
                 (- full) (- units m e)) in Hlow; try reflexivity; try assumption.
      destruct (Z.compare_spec (- full) (- units m e)); try discriminate; lia.
    + rewrite (compare_value (S754_finite false m e) (F32.of_Z 1)
                 (units m e) full) in Hhigh; try reflexivity; try assumption.
      destruct (Z.compare_spec (units m e) full); try discriminate; lia.
Qed.

End SpeedRange.

Lemma int16_bytes (code : Z) :
  0 <= code < 65536 ->
  Z.land (Z.shiftr (int16_wrap code) 8) 0xFF = code / 256 /\
  Z.land (int16_wrap code) 0xFF = code mod 256 /\
  code16 (int16_wrap code) = code.
Proof.
  intros H. change 0xFF with (Z.ones 8).
  rewrite !Z.land_ones, Z.shiftr_div_pow2 by lia.
  unfold code16, int16_wrap. change (2 ^ 8) with 256.
  repeat split; Z.to_euclidean_division_equations; lia.
Qed.

Lemma float_to_int16_product (s : bool) (m : positive) (e : Z) :
  bounded F32.prec F32.emax m e = true ->
  units m e <= full ->
  float_to_int16 (F32.mul (S754_finite s m e) SCALE) =
    Some (cond_Zopp s (ticks (units m e))) /\
  0 <= ticks (units m e) <= 3283.
Proof.
  intros Hb Hu.
  pose proof (ticks_range m e Hb Hu) as Hr.
  split; [| exact Hr].
  unfold float_to_int16. rewrite (mul_ticks s m e Hb Hu).
  set (k := cond_Zopp s _).
  assert (Hk : -32768 <= k <= 32767) by (unfold k; destruct s; simpl; lia).
  destruct (Z.leb_spec (-32768) k), (Z.leb_spec k 32767); try lia. reflexivity.
Qed.

Lemma speed_val_forward (m : positive) (e : Z) :
  bounded F32.prec F32.emax m e = true ->
  units m e <= full ->
  speed_val (S754_finite false m e) =
  Some (int16_wrap (0x8000 + ticks (units m e))).
Proof.
  intros Hb Hu. unfold speed_val.
  destruct (float_to_int16_product false m e Hb Hu) as [-> _]. reflexivity.
Qed.

Lemma speed_val_backward (m : positive) (e : Z) :
  bounded F32.prec F32.emax m e = true ->
  units m e <= full ->
  speed_val (S754_finite true m e) =
  Some (int16_wrap (0x7fff + - ticks (units m e))).
Proof.
  intros Hb Hu. unfold speed_val.
  destruct (float_to_int16_product true m e Hb Hu) as [-> _]. reflexivity.
Qed.

(** C3, as the specification words it, fails: at speed 0.25 the product is 820.75;
    the code holds 0x8000 + 820, where rounding gives 0x8000 + 821. *)
Lemma jog_code_truncates :
  F32.valid quarter = true /\
  F32.leb (F32.of_Z (-1)) quarter = true /\
  F32.leb quarter (F32.of_Z 1) = true /\
  option_map code16 (speed_val quarter) = Some (0x8000 + 820) /\
  spec_speed_code quarter = Some (0x8000 + 821) /\
  option_map code16 (speed_val quarter) <> spec_speed_code quarter.
Proof. vm_compute. repeat split; discriminate. Qed.

(** C3, amended. For every motor id, flag and well-formed speed in
    [-1.0, 1.0], the conversion of the single-precision product
    [speed * 3283.0f] to an integer is defined and gives k with
    |k| <= 3283, the product with its fractional part discarded; the
    16-bit speed code is 0x7fff when the speed compares equal to zero,
    0x8000 + k when it is positive and 0x7fff + k when it is negative; and
    [moveJog] sends this code, high byte first, before the terminator. *)
Theorem jog_speed_code (can_id flag : Z) (speed : F32.float) (s : Script) :
  F32.valid speed = true ->
  F32.leb (F32.of_Z (-1)) speed = true ->
  F32.leb speed (F32.of_Z 1) = true ->
  exists k code,
    float_to_int16 (F32.mul speed SCALE) = Some k /\
    F32.trunc (F32.mul speed SCALE) = Some k /\
    -3283 <= k <= 3283 /\
    code = (if F32.eqb speed F32.zero then 0x7fff
            else if F32.ltb F32.zero speed then 0x8000 + k
            else 0x7fff + k) /\
    option_map code16 (speed_val speed) = Some code /\
    frames_of (moveJog can_id speed flag) s =
      Some [[0x41; 0x54; 0x90; 0x07; 0xe8; can_id; 0x08; 0x05; 0x70;
             0x00; 0x00; 0x07; flag; code / 256; code mod 256; 0x0d; 0x0a]].
Proof.
  intros Hv Hl Hh.
  assert (Hsend : forall code,
             speed_val speed = Some (int16_wrap code) -> 0 <= code < 65536 ->
             option_map code16 (speed_val speed) = Some code /\
             frames_of (moveJog can_id speed flag) s =
               Some [[0x41; 0x54; 0x90; 0x07; 0xe8; can_id; 0x08; 0x05; 0x70;
                      0x00; 0x00; 0x07; flag; code / 256; code mod 256;
                      0x0d; 0x0a]]).
  { intros code Hsv Hc.
    destruct (int16_bytes code Hc) as (Hhi & Hlo & Hcode).
    rewrite Hsv. simpl option_map. rewrite Hcode. split; [reflexivity |].
    unfold frames_of, events_of.
    rewrite (moveJog_defined can_id speed flag _ s Hsv), Hhi, Hlo.
    apply sendCommand_frames. }
  destruct (in_range_cases speed Hv Hl Hh) as [[z ->] | (sg & m & e & -> & Hb & Hu)].
  - exists 0, 0x7fff.
    destruct (Hsend 0x7fff) as [Hc Hf]; [now destruct z | lia |].
    repeat split; try (now destruct z); try lia; assumption.
  - destruct (float_to_int16_product sg m e Hb Hu) as [Hk Hr].
    pose proof (mul_ticks sg m e Hb Hu) as Ht.
    destruct sg.
    + exists (- ticks (units m e)),
             (0x7fff + - ticks (units m e)).
      destruct (Hsend (0x7fff + - ticks (units m e)))
        as [Hc Hf]; [now apply speed_val_backward | lia |].
      repeat split; try assumption; lia.
    + exists (ticks (units m e)),
             (0x8000 + ticks (units m e)).
      destruct (Hsend (0x8000 + ticks (units m e)))
        as [Hc Hf]; [now apply speed_val_forward | lia |].
      repeat split; try assumption; lia.
Qed.

Lemma jog_speed_code_witness :
  exists k code,
    float_to_int16 (F32.mul quarter SCALE) = Some k /\
    F32.trunc (F32.mul quarter SCALE) = Some k /\
    -3283 <= k <= 3283 /\
    code = (if F32.eqb quarter F32.zero then 0x7fff
            else if F32.ltb F32.zero quarter then 0x8000 + k
            else 0x7fff + k) /\
    option_map code16 (speed_val quarter) = Some code /\
    frames_of (moveJog 0x0C quarter 1) [] =
      Some [[0x41; 0x54; 0x90; 0x07; 0xe8; 0x0C; 0x08; 0x05; 0x70;
             0x00; 0x00; 0x07; 1; code / 256; code mod 256; 0x0d; 0x0a]].
Proof.
  apply (jog_speed_code 0x0C 1 quarter []); reflexivity.
Defined.

(** * Monotonicity of the jog speed code *)

(** C7, as the specification words it, fails: 0.25 and the next single-precision
    number above it are both positive and in range, and get the same
    code. *)
Lemma jog_code_not_strict :
  ~ (forall speed1 speed2 v1 v2,
        F32.valid speed1 = true -> F32.valid speed2 = true ->
        F32.leb (F32.of_Z (-1)) speed1 = true -> F32.leb speed1 (F32.of_Z 1) = true ->
        F32.leb (F32.of_Z (-1)) speed2 = true -> F32.leb speed2 (F32.of_Z 1) = true ->
        (F32.ltb F32.zero speed1 = true /\ F32.ltb F32.zero speed2 = true) \/
        (F32.ltb speed1 F32.zero = true /\ F32.ltb speed2 F32.zero = true) ->
        F32.ltb speed1 speed2 = true ->
        speed_val speed1 = Some v1 -> speed_val speed2 = Some v2 ->
        v1 < v2).
Proof.
  intros H.
  specialize (H quarter quarter_next (-31948) (-31948)).
  assert (-31948 < -31948); [| lia].
  apply H; try reflexivity. left. split; reflexivity.
Qed.

(** C7, amended. Within each sign region the jog speed code never
    decreases: for well-formed speeds speed1 < speed2 in [-1.0, 1.0], both
    positive or both negative, [speed_val] is defined on both and
    the code of speed1 is at most the code of speed2, as the signed
    [int16_t] and as the 16-bit pattern sent. *)
Theorem jog_code_monotone (speed1 speed2 : F32.float) :
  F32.valid speed1 = true -> F32.valid speed2 = true ->
  F32.leb (F32.of_Z (-1)) speed1 = true -> F32.leb speed1 (F32.of_Z 1) = true ->
  F32.leb (F32.of_Z (-1)) speed2 = true -> F32.leb speed2 (F32.of_Z 1) = true ->
  (F32.ltb F32.zero speed1 = true /\ F32.ltb F32.zero speed2 = true) \/
  (F32.ltb speed1 F32.zero = true /\ F32.ltb speed2 F32.zero = true) ->
  F32.ltb speed1 speed2 = true ->
  exists v1 v2,
    speed_val speed1 = Some v1 /\ speed_val speed2 = Some v2 /\
    v1 <= v2 /\ code16 v1 <= code16 v2.
Proof.
  intros V1 V2 L1 H1 L2 H2 Hsign Hlt.
  destruct (in_range_cases speed1 V1 L1 H1) as [[z1 ->] | (s1 & m1 & e1 & -> & B1 & U1)].
  { destruct Hsign as [[C _] | [C _]]; destruct z1; discriminate C. }
  destruct (in_range_cases speed2 V2 L2 H2) as [[z2 ->] | (s2 & m2 & e2 & -> & B2 & U2)].
  { destruct Hsign as [[_ C] | [_ C]]; destruct z2; discriminate C. }
  destruct (bounded_facts m1 e1 B1) as (R1 & _ & _).
  destruct (bounded_facts m2 e2 B2) as (R2 & _ & _).
  pose proof (units_pos m1 e1 ltac:(lia)) as P1.
  pose proof (units_pos m2 e2 ltac:(lia)) as P2.
  pose proof (ticks_range m1 e1 B1 U1) as T1.
  pose proof (ticks_range m2 e2 B2 U2) as T2.
  unfold F32.ltb, SFltb in Hlt.
  rewrite (compare_value _ _ _ _ V1 V2 eq_refl eq_refl) in Hlt.
  destruct (Z.compare_spec (cond_Zopp s1 (units m1 e1))
              (cond_Zopp s2 (units m2 e2))) as [| Hu |]; try discriminate.
  assert (Hs : s1 = s2).
  { destruct Hsign as [[C1 C2] | [C1 C2]]; destruct s1, s2;
      try reflexivity; discriminate. }
  subst s2. destruct s1; cbn [cond_Zopp] in Hu.
  - pose proof (ticks_mono (units m2 e2) (units m1 e1)
                  ltac:(lia)) as Hm.
    eexists _, _.
    split; [now apply speed_val_backward |].
    split; [now apply speed_val_backward |].
    destruct (int16_bytes (0x7fff + - ticks (units m1 e1))
                ltac:(lia)) as (_ & _ & C1).
    destruct (int16_bytes (0x7fff + - ticks (units m2 e2))
                ltac:(lia)) as (_ & _ & C2).
    rewrite C1, C2. split; [| lia].
    unfold int16_wrap. Z.to_euclidean_division_equations; lia.
  - pose proof (ticks_mono (units m1 e1) (units m2 e2)
                  ltac:(lia)) as Hm.
    eexists _, _.
    split; [now apply speed_val_forward |].
    split; [now apply speed_val_forward |].
    destruct (int16_bytes (0x8000 + ticks (units m1 e1))
                ltac:(lia)) as (_ & _ & C1).
    destruct (int16_bytes (0x8000 + ticks (units m2 e2))
                ltac:(lia)) as (_ & _ & C2).
    rewrite C1, C2. split; [| lia].
    unfold int16_wrap. Z.to_euclidean_division_equations; lia.
Qed.

Lemma jog_code_monotone_witness :
  exists v1 v2,
    speed_val quarter = Some v1 /\ speed_val (F32.of_Z 1) = Some v2 /\
    v1 <= v2 /\ code16 v1 <= code16 v2.
Proof.
  apply (jog_code_monotone quarter (F32.of_Z 1)); try reflexivity.
  left. split; reflexivity.
Defined.


(** * Further properties of the encoder *)

(** ** Rounding at any magnitude *)

Lemma ipart_carry (E : Z) : ipart (2 ^ 23) (E + 1) = ipart (2 ^ 24) E.
Proof.
  unfold ipart.
  destruct (Z.leb_spec 0 (E + 1)), (Z.leb_spec 0 E); try lia.
  - rewrite Z.pow_add_r by lia. change (2 ^ 24) with (2 ^ 23 * 2 ^ 1). lia.
  - replace E with (-1) by lia. reflexivity.
  - replace (- E) with (1 + - (E + 1)) by lia.
    rewrite Z.pow_add_r by lia.
    change (2 ^ 24) with (2 ^ 1 * 2 ^ 23).
    pose proof (pow2_pos (- (E + 1)) ltac:(lia)).
    now rewrite Z.div_mul_cancel_l by lia.
Qed.

Lemma ipart_units (q E : Z) :
  -161 <= E -> ipart q E = q * 2 ^ (E + 161) / 2 ^ 161.
Proof.
  intros HE. unfold ipart.
  destruct (Z.leb_spec 0 E).
  - rewrite Z.pow_add_r by lia. rewrite Z.mul_assoc.
    now rewrite Z.div_mul by lia.
  - replace 161 with (- E + (E + 161)) at 2 by lia.
    rewrite (Z.pow_add_r 2 (- E) (E + 161)) by lia.
    pose proof (pow2_pos (- E) ltac:(lia)).
    pose proof (pow2_pos (E + 161) ltac:(lia)).
    now rewrite Z.div_mul_cancel_r by lia.
Qed.

(** Rounding an exact value [M * 2^e0] to single precision, at any
    magnitude: the result overflows to infinity, or its integer part is
    that of the significand cut at [E] and rounded to even. *)
Lemma round_exact_any (s : bool) (M e0 : Z) :
  let E := fexp F32.prec F32.emax (Zdigits2 M + e0) in
  0 < M -> e0 <= E ->
  binary_round_aux F32.prec F32.emax s M e0 loc_Exact = S754_infinity s \/
  F32.trunc (binary_round_aux F32.prec F32.emax s M e0 loc_Exact) =
  Some (cond_Zopp s (ipart (rne M (E - e0)) E)).
Proof.
  intros E HM He0.
  pose proof (fexp_ge_emin (Zdigits2 M + e0)) as Hmin. fold E in Hmin.
  unfold binary_round_aux, shr_fexp at 1 3. fold E.
  pose proof (shr_round M e0 (E - e0) ltac:(lia) ltac:(lia)) as Hs1.
  destruct (shr (shr_record_of_loc M loc_Exact) e0 (E - e0)) as [mrs e'].
  destruct Hs1 as [Hq He']. rewrite Hq. subst e'.
  replace (e0 + (E - e0)) with E by lia.
  set (q := rne M (E - e0)).
  assert (Hqb : 0 <= q <= 2 ^ 24).
  { pose proof (rne_bounds M (E - e0) ltac:(lia)) as [B1 B2]. fold q in B1, B2.
    pose proof (pow2_pos (E - e0) ltac:(lia)) as HP.
    pose proof (Zdigits2_bounds M HM) as [_ Hu].
    assert (Hd : Zdigits2 M <= 24 + (E - e0)).
    { unfold E, fexp, F32.prec. lia. }
    assert (M < 2 ^ 24 * 2 ^ (E - e0)).
    { rewrite <- Z.pow_add_r by lia.
      eapply Z.lt_le_trans; [exact Hu |]. apply Z.pow_le_mono_r; lia. }
    assert (M / 2 ^ (E - e0) < 2 ^ 24) by (apply Z.div_lt_upper_bound; lia).
    assert (0 <= M / 2 ^ (E - e0)) by (apply Z.div_pos; lia).
    lia. }
  destruct (Z.eq_dec q 0) as [Hz | Hnz].
  - right. rewrite Hz. unfold shr_fexp. simpl Zdigits2.
    assert (Hn : fexp F32.prec F32.emax (0 + E) - E <= 0)
      by (unfold fexp, emin, F32.prec, F32.emax; lia).
    assert (Hi : ipart 0 E = 0).
    { unfold ipart. destruct (Z.leb_spec 0 E); [lia |]. apply Z.div_0_l.
      pose proof (pow2_pos (- E) ltac:(lia)). lia. }
    rewrite Hi.
    destruct (fexp F32.prec F32.emax (0 + E) - E) as [| n | n]; try lia;
      simpl; now destruct s.
  - destruct (Z.eq_dec q (2 ^ 24)) as [Htop | Hlow].
    + rewrite Htop. unfold shr_fexp. simpl Zdigits2.
      replace (fexp F32.prec F32.emax (25 + E) - E) with 1
        by (unfold fexp, emin, F32.prec, F32.emax; lia).
      cbn [shr iter_pos shr_record_of_loc]. simpl shr_1. cbn [shr_m].
      destruct (E + 1 <=? F32.emax - F32.prec); [right | now left].
      cbn [F32.trunc]. do 2 f_equal.
      rewrite <- ipart_carry. unfold ipart, F32.trunc_mag.
      destruct (0 <=? E + 1); reflexivity.
    + assert (Hq' : 0 < q < 2 ^ 24) by lia.
      pose proof (small_digits q Hq') as Hdq.
      unfold shr_fexp.
      assert (Hn : fexp F32.prec F32.emax (Zdigits2 q + E) - E <= 0)
        by (unfold fexp, emin, F32.prec, F32.emax; lia).
      destruct q as [| p | p]; try lia.
      replace (shr (shr_record_of_loc (Z.pos p) loc_Exact) E
                 (fexp F32.prec F32.emax (Zdigits2 (Z.pos p) + E) - E))
        with ({| shr_m := Z.pos p; shr_r := false; shr_s := false |}, E)
        by (destruct (fexp F32.prec F32.emax (Zdigits2 (Z.pos p) + E) - E);
            try lia; reflexivity).
      cbn [shr_m].
      destruct (E <=? F32.emax - F32.prec); [right | now left].
      reflexivity.
Qed.

(** The conversion of [speed * 3283.0f], for every well-formed finite
    speed: the product overflows, or its integer part is [ticks]. *)
Lemma mul_ticks_any (s : bool) (m : positive) (e : Z) :
  bounded F32.prec F32.emax m e = true ->
  F32.mul (S754_finite s m e) SCALE = S754_infinity s \/
  F32.trunc (F32.mul (S754_finite s m e) SCALE) =
  Some (cond_Zopp s (ticks (units m e))).
Proof.
  intros Hb.
  destruct (bounded_facts m e Hb) as (Hr & Hm & _).
  pose proof (product_digits m Hm) as Hd.
  rewrite mul_scale.
  set (M := Zpos m * 13447168) in *.
  set (E := fexp F32.prec F32.emax (Zdigits2 M + (e + -12))).
  assert (HE : E = Z.max (Zdigits2 M + e - 36) (-149))
    by (unfold E, fexp, emin, F32.prec, F32.emax; lia).
  destruct (round_exact_any s M (e + -12)) as [Hinf | Ht]; fold E; try lia.
  - now left.
  - right. rewrite Ht. do 2 f_equal.
    rewrite ipart_units by lia.
    unfold ticks, rounded, units. fold M.
    assert (Hp : pos (M * 2 ^ (e + 149)) = E + 161).
    { unfold pos. rewrite Zdigits2_scale by lia. lia. }
    rewrite Hp.
    fold E.
    replace (rne (M * 2 ^ (e + 149)) (E + 161))
      with (rne (M * 2 ^ (e + 149)) ((E - (e + -12)) + (e + 149)))
      by (f_equal; lia).
    now rewrite rne_scale by lia.
Qed.

Lemma mul_ticks_below (m0 : positive) (e0 : Z) (s : bool) (m : positive) (e : Z) :
  bounded F32.prec F32.emax m0 e0 = true -> e0 <= -14 ->
  bounded F32.prec F32.emax m e = true ->
  units m e <= units m0 e0 ->
  F32.trunc (F32.mul (S754_finite s m e) SCALE) =
  Some (cond_Zopp s (ticks (units m e))).
Proof.
  intros Hb0 He0 Hb Hu.
  assert (He : e <= -14).
  { destruct (Z.le_gt_cases e e0) as [| Hgt]; [lia |].
    pose proof (units_lt m0 e0 m e Hb0 Hb Hgt). lia. }
  destruct (bounded_facts m e Hb) as (Hr & Hm & _).
  pose proof (product_digits m Hm) as Hd.
  destruct (mul_ticks_any s m e Hb) as [Hinf | Ht]; [| exact Ht].
  exfalso. rewrite mul_scale in Hinf.
  set (M := Zpos m * 13447168) in *.
  pose proof (round_exact_trunc s M (e + -12)) as Hfin. cbv zeta in Hfin.
  rewrite Hinf in Hfin.
  assert (HE : fexp F32.prec F32.emax (Zdigits2 M + (e + -12)) =
               Z.max (Zdigits2 M + e - 36) (-149))
    by (unfold fexp, emin, F32.prec, F32.emax; lia).
  discriminate Hfin; lia.
Qed.

Lemma speed_val_range (speed : F32.float) (v : Z) :
  speed_val speed = Some v -> -32768 <= v <= 32767.
Proof.
  unfold speed_val. intros H.
  assert (W : forall z, -32768 <= int16_wrap z <= 32767).
  { intros z. unfold int16_wrap. Z.to_euclidean_division_equations; lia. }
  destruct (F32.eqb speed F32.zero); [injection H as <-; apply W |].
  destruct (F32.ltb F32.zero speed);
    destruct (float_to_int16 (F32.mul speed SCALE)); try discriminate;
    injection H as <-; apply W.
Qed.

Lemma int16_split (v : Z) :
  -32768 <= v <= 32767 ->
  0 <= Z.land (Z.shiftr v 8) 0xFF < 256 /\
  0 <= Z.land v 0xFF < 256 /\
  Z.land (Z.shiftr v 8) 0xFF * 256 + Z.land v 0xFF = code16 v /\
  decode_int16 (Z.land (Z.shiftr v 8) 0xFF) (Z.land v 0xFF) = v.
Proof.
  intros H. unfold decode_int16. change 0xFF with (Z.ones 8).
  rewrite !Z.land_ones, Z.shiftr_div_pow2 by lia.
  unfold code16, int16_wrap. change (2 ^ 8) with 256.
  repeat split; Z.to_euclidean_division_equations; lia.
Qed.

(** ** The code over the whole range *)

Lemma in_range_value (speed : F32.float) :
  F32.valid speed = true ->
  F32.leb (F32.of_Z (-1)) speed = true ->
  F32.leb speed (F32.of_Z 1) = true ->
  exists a, value speed = Some a /\ - full <= a <= full.
Proof.
  intros Hv Hl Hh.
  destruct (in_range_cases speed Hv Hl Hh) as [[z ->] | (sg & m & e & -> & Hb & Hu)].
  - exists 0. split; [reflexivity |].
    assert (0 < full) by (apply (units_pos 8388608 (-23)); lia). lia.
  - destruct (bounded_facts m e Hb) as (Hr & _ & _).
    pose proof (units_pos m e ltac:(lia)).
    assert (0 < full) by (apply (units_pos 8388608 (-23)); lia).
    exists (cond_Zopp sg (units m e)). split; [reflexivity |].
    destruct sg; cbn [cond_Zopp]; lia.
Qed.

Lemma ticks_le_full (X : Z) : 0 < X <= full -> 0 <= ticks X <= 3283.
Proof.
  intros H. split; [apply ticks_nonneg; lia |].
  rewrite <- ticks_full. now apply ticks_mono.
Qed.

Lemma code_of_units_range (a : Z) :
  - full <= a <= full ->
  (a = 0 -> code_of_units a = 0x7fff) /\
  (0 < a -> 0x8000 <= code_of_units a <= 0x8cd3) /\
  (a < 0 -> 0x732c <= code_of_units a <= 0x7fff).
Proof.
  intros H. unfold code_of_units.
  destruct (Z.eqb_spec a 0), (Z.ltb_spec 0 a); repeat split; intros; try lia.
  - pose proof (ticks_le_full a ltac:(lia)). lia.
  - pose proof (ticks_le_full a ltac:(lia)). lia.
  - pose proof (ticks_le_full (- a) ltac:(lia)). lia.
  - pose proof (ticks_le_full (- a) ltac:(lia)). lia.
Qed.

Lemma code_of_units_mono (a1 a2 : Z) :
  - full <= a1 -> a1 <= a2 -> a2 <= full ->
  code_of_units a1 <= code_of_units a2.
Proof.
  intros H1 H12 H2.
  destruct (code_of_units_range a1 ltac:(lia)) as (Z1 & P1 & N1).
  destruct (code_of_units_range a2 ltac:(lia)) as (Z2 & P2 & N2).
  destruct (Z.lt_trichotomy a1 0) as [L1 | [E1 | G1]];
    destruct (Z.lt_trichotomy a2 0) as [L2 | [E2 | G2]]; try lia.
  - unfold code_of_units.
    destruct (Z.eqb_spec a1 0), (Z.eqb_spec a2 0); try lia.
    destruct (Z.ltb_spec 0 a1), (Z.ltb_spec 0 a2); try lia.
    pose proof (ticks_mono (- a2) (- a1) ltac:(lia)). lia.
  - unfold code_of_units.
    destruct (Z.eqb_spec a1 0), (Z.eqb_spec a2 0); try lia.
    destruct (Z.ltb_spec 0 a1), (Z.ltb_spec 0 a2); try lia.
    pose proof (ticks_mono a1 a2 ltac:(lia)). lia.
Qed.

Lemma speed_val_units (speed : F32.float) (a : Z) :
  F32.valid speed = true ->
  value speed = Some a -> - full <= a <= full ->
  speed_val speed = Some (int16_wrap (code_of_units a)).
Proof.
  intros Hv Ha Hr.
  destruct speed as [z | z | | sg m e]; try discriminate;
    cbn [value] in Ha; injection Ha as <-.
  - now destruct z.
  - unfold F32.valid, valid_binary in Hv.
    destruct (bounded_facts m e Hv) as (He & _ & _).
    pose proof (units_pos m e ltac:(lia)) as Hp.
    unfold code_of_units.
    destruct sg; cbn [cond_Zopp] in *.
    + destruct (Z.eqb_spec (- units m e) 0); [lia |].
      destruct (Z.ltb_spec 0 (- units m e)); [lia |].
      rewrite Z.opp_involutive.
      rewrite speed_val_backward by (assumption || lia).
      do 2 f_equal.
    + destruct (Z.eqb_spec (units m e) 0); [lia |].
      destruct (Z.ltb_spec 0 (units m e)); [| lia].
      now rewrite speed_val_forward by (assumption || lia).
Qed.

Lemma sign_of_value (speed : F32.float) (a : Z) :
  F32.valid speed = true -> value speed = Some a ->
  F32.eqb speed F32.zero = (a =? 0) /\
  F32.ltb F32.zero speed = (0 <? a) /\
  F32.ltb speed F32.zero = (a <? 0).
Proof.
  intros Hv Ha.
  unfold F32.eqb, F32.ltb, SFeqb, SFltb.
  rewrite (compare_value speed F32.zero a 0 Hv eq_refl Ha eq_refl).
  rewrite (compare_value F32.zero speed 0 a eq_refl Hv eq_refl Ha).
  split; [| split].
  - destruct (Z.compare_spec a 0), (Z.eqb_spec a 0); try reflexivity; lia.
  - destruct (Z.compare_spec 0 a), (Z.ltb_spec 0 a); try reflexivity; lia.
  - destruct (Z.compare_spec a 0), (Z.ltb_spec a 0); try reflexivity; lia.
Qed.

(** X2. Sign regions of the jog speed code.  For a well-formed speed in
    [-1.0, 1.0]: a zero gives 0x7fff; a positive speed gives a 16-bit
    pattern in 0x8000..0x8cd3, and [speed_val], the [int16_t], has wrapped
    to a negative value; a negative speed gives 0x732c..0x7fff. *)
Theorem jog_code_regions (speed : F32.float) :
  F32.valid speed = true ->
  F32.leb (F32.of_Z (-1)) speed = true ->
  F32.leb speed (F32.of_Z 1) = true ->
  exists v,
    speed_val speed = Some v /\
    (F32.eqb speed F32.zero = true -> v = 0x7fff) /\
    (F32.ltb F32.zero speed = true ->
       0x8000 <= code16 v <= 0x8cd3 /\ v = code16 v - 65536 /\ v < 0) /\
    (F32.ltb speed F32.zero = true ->
       0x732c <= code16 v <= 0x7fff /\ v = code16 v).
Proof.
  intros Hv Hl Hh.
  destruct (in_range_value speed Hv Hl Hh) as (a & Ha & Hr).
  destruct (sign_of_value speed a Hv Ha) as (Ez & Ep & En).
  destruct (code_of_units_range a Hr) as (Z0 & P0 & N0).
  exists (int16_wrap (code_of_units a)).
  split; [now apply speed_val_units |].
  rewrite Ez, Ep, En.
  assert (Hc : 0 <= code_of_units a < 65536).
  { destruct (Z.lt_trichotomy a 0) as [L | [E | G]]; lia. }
  destruct (int16_bytes _ Hc) as (_ & _ & Hcode). rewrite Hcode.
  repeat split.
  - intros E. apply Z.eqb_eq in E. rewrite (Z0 E). reflexivity.
  - apply Z.ltb_lt in H. lia.
  - apply Z.ltb_lt in H. lia.
  - apply Z.ltb_lt in H. specialize (P0 H).
    unfold int16_wrap. Z.to_euclidean_division_equations; lia.
  - apply Z.ltb_lt in H. specialize (P0 H).
    unfold int16_wrap. Z.to_euclidean_division_equations; lia.
  - apply Z.ltb_lt in H. lia.
  - apply Z.ltb_lt in H. lia.
  - apply Z.ltb_lt in H. specialize (N0 H).
    unfold int16_wrap. Z.to_euclidean_division_equations; lia.
Qed.

Lemma jog_code_regions_witness :
  exists v,
    speed_val quarter = Some v /\
    (F32.eqb quarter F32.zero = true -> v = 0x7fff) /\
    (F32.ltb F32.zero quarter = true ->
       0x8000 <= code16 v <= 0x8cd3 /\ v = code16 v - 65536 /\ v < 0) /\
    (F32.ltb quarter F32.zero = true ->
       0x732c <= code16 v <= 0x7fff /\ v = code16 v).
Proof.
  apply (jog_code_regions quarter); reflexivity.
Defined.

(** X3. Read as an unsigned 16-bit number, the code never decreases over
    the whole range: for well-formed speed1 < speed2 in [-1.0, 1.0], of
    any signs, the code of speed1 is at most the code of speed2. *)
Theorem jog_code_monotone_whole_range (speed1 speed2 : F32.float) :
  F32.valid speed1 = true -> F32.valid speed2 = true ->
  F32.leb (F32.of_Z (-1)) speed1 = true -> F32.leb speed1 (F32.of_Z 1) = true ->
  F32.leb (F32.of_Z (-1)) speed2 = true -> F32.leb speed2 (F32.of_Z 1) = true ->
  F32.ltb speed1 speed2 = true ->
  exists v1 v2,
    speed_val speed1 = Some v1 /\ speed_val speed2 = Some v2 /\
    code16 v1 <= code16 v2.
Proof.
  intros V1 V2 L1 H1 L2 H2 Hlt.
  destruct (in_range_value speed1 V1 L1 H1) as (a1 & A1 & R1).
  destruct (in_range_value speed2 V2 L2 H2) as (a2 & A2 & R2).
  unfold F32.ltb, SFltb in Hlt.
  rewrite (compare_value speed1 speed2 a1 a2 V1 V2 A1 A2) in Hlt.
  assert (Ha : a1 < a2) by (destruct (Z.compare_spec a1 a2); try discriminate; lia).
  exists (int16_wrap (code_of_units a1)), (int16_wrap (code_of_units a2)).
  split; [now apply speed_val_units |].
  split; [now apply speed_val_units |].
  destruct (code_of_units_range a1 R1) as (Z1 & P1 & N1).
  destruct (code_of_units_range a2 R2) as (Z2 & P2 & N2).
  assert (C1 : 0 <= code_of_units a1 < 65536)
    by (destruct (Z.lt_trichotomy a1 0) as [L | [E | G]]; lia).
  assert (C2 : 0 <= code_of_units a2 < 65536)
    by (destruct (Z.lt_trichotomy a2 0) as [L | [E | G]]; lia).
  destruct (int16_bytes _ C1) as (_ & _ & ->).
  destruct (int16_bytes _ C2) as (_ & _ & ->).
  apply code_of_units_mono; lia.
Qed.

Lemma jog_code_monotone_whole_range_witness :
  exists v1 v2,
    speed_val (F32.of_Z (-1)) = Some v1 /\ speed_val quarter = Some v2 /\
    code16 v1 <= code16 v2.
Proof.
  apply (jog_code_monotone_whole_range (F32.of_Z (-1)) quarter); reflexivity.
Defined.

(** X4. A nonzero speed in [-1.0, 1.0] and its opposite get
    complementary codes: the two 16-bit patterns add up to 0xffff. *)
Theorem jog_code_complement (speed : F32.float) :
  F32.valid speed = true ->
  F32.leb (F32.of_Z (-1)) speed = true ->
  F32.leb speed (F32.of_Z 1) = true ->
  F32.eqb speed F32.zero = false ->
  exists v v',
    speed_val speed = Some v /\ speed_val (F32.opp speed) = Some v' /\
    code16 v + code16 v' = 0xffff.
Proof.
  intros Hv Hl Hh Hnz.
  destruct (in_range_cases speed Hv Hl Hh) as [[z ->] | (sg & m & e & -> & Hb & Hu)].
  { destruct z; discriminate Hnz. }
  pose proof (ticks_range m e Hb Hu) as Ht.
  destruct (int16_bytes (0x8000 + ticks (units m e)) ltac:(lia)) as (_ & _ & Cp).
  destruct (int16_bytes (0x7fff + - ticks (units m e)) ltac:(lia)) as (_ & _ & Cn).
  destruct sg; cbn [F32.opp SFopp negb]; eexists _, _;
    (split; [first [now apply speed_val_backward | now apply speed_val_forward] |]);
    (split; [first [now apply speed_val_backward | now apply speed_val_forward] |]);
    rewrite Cp, Cn; lia.
Qed.

Lemma jog_code_complement_witness :
  exists v v',
    speed_val quarter = Some v /\ speed_val (F32.opp quarter) = Some v' /\
    code16 v + code16 v' = 0xffff.
Proof.
  apply (jog_code_complement quarter); reflexivity.
Defined.

(** ** Quantisation *)

Lemma rne_error (M n : Z) :
  1 <= n -> 0 <= M ->
  M - 2 ^ (n - 1) <= rne M n * 2 ^ n <= M + 2 ^ (n - 1).
Proof.
  intros Hn HM.
  replace n with (Z.succ (n - 1)) at 2 3 4 by lia.
  unfold rne. cbv zeta.
  replace (2 ^ n) with (2 * 2 ^ (n - 1))
    by (rewrite <- Z.pow_succ_r by lia; f_equal; lia).
  rewrite Z.pow_succ_r by lia.
  pose proof (pow2_pos (n - 1) ltac:(lia)) as HH.
  set (H := 2 ^ (n - 1)) in *.
  pose proof (Z.div_mod M (2 * H) ltac:(lia)) as D.
  pose proof (Z.mod_pos_bound M (2 * H) ltac:(lia)) as B.
  set (q := M / (2 * H)) in *. set (r := M mod (2 * H)) in *.
  destruct (Z.ltb_spec (2 * r) (2 * H)); [nia |].
  destruct (Z.eqb_spec (2 * r) (2 * H)); [destruct (Z.even q) |]; nia.
Qed.

Lemma digits_full : Zdigits2 full = 173.
Proof. vm_compute. reflexivity. Qed.

Lemma rounded_error (X : Z) :
  0 < X <= full -> X - 2 ^ 148 <= rounded X <= X + 2 ^ 148.
Proof.
  intros H.
  pose proof (Zdigits2_mono X full H) as Hd. rewrite digits_full in Hd.
  assert (Hp : 12 <= pos X <= 149) by (unfold pos; lia).
  pose proof (rne_error X (pos X) ltac:(lia) ltac:(lia)) as E.
  assert (2 ^ (pos X - 1) <= 2 ^ 148) by (apply Z.pow_le_mono_r; lia).
  unfold rounded. lia.
Qed.

(** X5. The magnitude of the integer the code carries is within one unit
    (and 2^-13) of the exact product |speed| * 3283. *)
Theorem jog_quantisation (sg : bool) (m : positive) (e : Z) :
  let speed := S754_finite sg m e in
  F32.valid speed = true ->
  F32.leb (F32.of_Z (-1)) speed = true ->
  F32.leb speed (F32.of_Z 1) = true ->
  exists k,
    float_to_int16 (F32.mul speed SCALE) = Some k /\
    Z.abs k * 2 ^ 161 <= Zpos m * 3283 * 2 ^ (e + 161) + 2 ^ 148 /\
    Zpos m * 3283 * 2 ^ (e + 161) < (Z.abs k + 1) * 2 ^ 161 + 2 ^ 148.
Proof.
  intros speed Hv Hl Hh.
  destruct (in_range_cases speed Hv Hl Hh) as [[z C] | (sg' & m' & e' & C & Hb & Hu)];
    [discriminate C |].
  injection C as <- <- <-.
  destruct (bounded_facts m e Hb) as (Hr & _ & _).
  pose proof (units_pos m e ltac:(lia)) as Hp.
  destruct (float_to_int16_product sg m e Hb Hu) as [Hk Ht].
  exists (cond_Zopp sg (ticks (units m e))). split; [exact Hk |].
  assert (Ha : Z.abs (cond_Zopp sg (ticks (units m e))) = ticks (units m e))
    by (destruct sg; cbn [cond_Zopp]; lia).
  rewrite Ha.
  assert (HU : Zpos m * 3283 * 2 ^ (e + 161) = units m e).
  { unfold units. replace (e + 161) with (12 + (e + 149)) by lia.
    rewrite Z.pow_add_r by lia. change (2 ^ 12) with 4096. lia. }
  rewrite HU.
  pose proof (rounded_error (units m e) ltac:(lia)) as [E1 E2].
  unfold ticks in *.
  pose proof (Z.div_mod (rounded (units m e)) (2 ^ 161) ltac:(lia)) as D.
  pose proof (Z.mod_pos_bound (rounded (units m e)) (2 ^ 161) ltac:(lia)) as B.
  lia.
Qed.

Lemma jog_quantisation_witness :
  exists k,
    float_to_int16 (F32.mul quarter SCALE) = Some k /\
    Z.abs k * 2 ^ 161 <= 8388608 * 3283 * 2 ^ (-25 + 161) + 2 ^ 148 /\
    8388608 * 3283 * 2 ^ (-25 + 161) < (Z.abs k + 1) * 2 ^ 161 + 2 ^ 148.
Proof.
  apply (jog_quantisation false 8388608 (-25)); reflexivity.
Defined.

(** ** Frames of [moveJog] *)

Lemma moveJog_frames (can_id flag : Z) (speed : F32.float) (v : Z) (s : Script) :
  speed_val speed = Some v ->
  frames_of (moveJog can_id speed flag) s =
  Some [[0x41; 0x54; 0x90; 0x07; 0xe8; can_id; 0x08; 0x05; 0x70;
         0x00; 0x00; 0x07; flag;
         Z.land (Z.shiftr v 8) 0xFF; Z.land v 0xFF; 0x0d; 0x0a]].
Proof.
  intros Hv. unfold frames_of, events_of.
  rewrite (moveJog_defined can_id speed flag v s Hv).
  apply sendCommand_frames.
Qed.

(** X1. Whenever [moveJog] is defined, its frame follows the wire layout with
    data length 8 and eight payload bytes, all its bytes are in 0..255,
    and the two speed bytes read back as [speed_val]. *)
Theorem jog_frame_round_trip
    (can_id flag : Z) (speed : F32.float) (v : Z) (s : Script) :
  speed_val speed = Some v ->
  0 <= can_id < 256 -> 0 <= flag < 256 ->
  exists hi lo,
    frames_of (moveJog can_id speed flag) s =
      Some [layout 0x90 can_id 0x08 [0x05; 0x70; 0x00; 0x00; 0x07; flag; hi; lo]] /\
    Forall (fun b => 0 <= b < 256)
      (layout 0x90 can_id 0x08 [0x05; 0x70; 0x00; 0x00; 0x07; flag; hi; lo]) /\
    length (layout 0x90 can_id 0x08 [0x05; 0x70; 0x00; 0x00; 0x07; flag; hi; lo])
      = 17%nat /\
    decode_int16 hi lo = v /\
    hi * 256 + lo = code16 v.
Proof.
  intros Hv Hid Hflag.
  pose proof (speed_val_range speed v Hv) as Hr.
  destruct (int16_split v Hr) as (Hhi & Hlo & Hcode & Hdec).
  exists (Z.land (Z.shiftr v 8) 0xFF), (Z.land v 0xFF).
  split; [now apply moveJog_frames |].
  split; [| repeat split; assumption].
  unfold layout. simpl app.
  repeat (apply Forall_cons; [lia || assumption |]). apply Forall_nil.
Qed.

Lemma jog_frame_round_trip_witness :
  exists hi lo,
    frames_of (moveJog 0x0C quarter 1) [] =
      Some [layout 0x90 0x0C 0x08 [0x05; 0x70; 0x00; 0x00; 0x07; 1; hi; lo]] /\
    Forall (fun b => 0 <= b < 256)
      (layout 0x90 0x0C 0x08 [0x05; 0x70; 0x00; 0x00; 0x07; 1; hi; lo]) /\
    length (layout 0x90 0x0C 0x08 [0x05; 0x70; 0x00; 0x00; 0x07; 1; hi; lo])
      = 17%nat /\
    decode_int16 hi lo = -31948 /\
    hi * 256 + lo = code16 (-31948).
Proof.
  apply (jog_frame_round_trip 0x0C 1 quarter (-31948) []); [reflexivity | lia | lia].
Defined.

(** ** Speeds below one code unit *)

Lemma tiny_bounded : bounded F32.prec F32.emax 8388608 (-35) = true.
Proof. reflexivity. Qed.

Lemma ticks_tiny : ticks (units 8388608 (-35)) = 0.
Proof. vm_compute. reflexivity. Qed.

Lemma tiny_below_full : units 8388608 (-35) <= full.
Proof.
  pose proof (units_lt 8388608 (-35) 8388608 (-23) tiny_bounded one_bounded).
  unfold full. lia.
Qed.

(** X6. A speed of magnitude at most 1/4096 is below one code unit: [moveMotor]
    sends it with the move flag set, as code 0x8000 when it is positive
    and as 0x7fff, the code of a stop, when it is negative. *)
Theorem jog_dead_zone (can_id : Z) (speed : F32.float) (s : Script) :
  F32.valid speed = true ->
  (F32.ltb F32.zero speed = true -> F32.leb speed tiny = true ->
   frames_of (moveMotor can_id speed) s =
     Some [[0x41; 0x54; 0x90; 0x07; 0xe8; can_id; 0x08; 0x05; 0x70;
            0x00; 0x00; 0x07; 0x01; 0x80; 0x00; 0x0d; 0x0a]]) /\
  (F32.ltb speed F32.zero = true -> F32.leb (F32.opp tiny) speed = true ->
   frames_of (moveMotor can_id speed) s =
     Some [[0x41; 0x54; 0x90; 0x07; 0xe8; can_id; 0x08; 0x05; 0x70;
            0x00; 0x00; 0x07; 0x01; 0x7f; 0xff; 0x0d; 0x0a]]).
Proof.
  intros Hv.
  assert (K : forall sg m e,
             speed = S754_finite sg m e -> units m e <= units 8388608 (-35) ->
             bounded F32.prec F32.emax m e = true /\ units m e <= full /\
             ticks (units m e) = 0).
  { intros sg m e -> Hu. unfold F32.valid, valid_binary in Hv.
    destruct (bounded_facts m e Hv) as (Hr & _ & _).
    pose proof (units_pos m e ltac:(lia)).
    pose proof tiny_below_full.
    pose proof (ticks_mono (units m e) (units 8388608 (-35)) ltac:(lia)) as Hm.
    rewrite ticks_tiny in Hm.
    pose proof (ticks_nonneg (units m e) ltac:(lia)).
    repeat split; try assumption; lia. }
  split; intros Hsign Hle.
  - destruct speed as [z | z | | sg m e]; try (destruct z; discriminate).
    { discriminate. }
    destruct sg; [discriminate |].
    unfold F32.leb, SFleb in Hle.
    rewrite (compare_value _ tiny (units m e) (units 8388608 (-35)) Hv eq_refl
               eq_refl eq_refl) in Hle.
    assert (Hu : units m e <= units 8388608 (-35))
      by (destruct (Z.compare_spec (units m e) (units 8388608 (-35)));
          try discriminate; lia).
    destruct (K false m e eq_refl Hu) as (Hb & Hf & Ht).
    unfold moveMotor. cbn [F32.eqb SFeqb SFcompare F32.zero].
    rewrite (moveJog_frames can_id 1 _ _ s (speed_val_forward m e Hb Hf)), Ht.
    reflexivity.
  - destruct speed as [z | z | | sg m e]; try (destruct z; discriminate).
    { discriminate. }
    destruct sg; [| discriminate].
    unfold F32.leb, SFleb in Hle.
    rewrite (compare_value (F32.opp tiny) _ (- units 8388608 (-35)) (- units m e)
               eq_refl Hv eq_refl eq_refl) in Hle.
    assert (Hu : units m e <= units 8388608 (-35))
      by (destruct (Z.compare_spec (- units 8388608 (-35)) (- units m e));
          try discriminate; lia).
    destruct (K true m e eq_refl Hu) as (Hb & Hf & Ht).
    unfold moveMotor. cbn [F32.eqb SFeqb SFcompare F32.zero].
    rewrite (moveJog_frames can_id 1 _ _ s (speed_val_backward m e Hb Hf)), Ht.
    reflexivity.
Qed.

Lemma jog_dead_zone_witness :
  frames_of (moveMotor 0x0C tiny) [] =
    Some [[0x41; 0x54; 0x90; 0x07; 0xe8; 0x0C; 0x08; 0x05; 0x70;
           0x00; 0x00; 0x07; 0x01; 0x80; 0x00; 0x0d; 0x0a]] /\
  frames_of (moveMotor 0x0C (F32.opp tiny)) [] =
    Some [[0x41; 0x54; 0x90; 0x07; 0xe8; 0x0C; 0x08; 0x05; 0x70;
           0x00; 0x00; 0x07; 0x01; 0x7f; 0xff; 0x0d; 0x0a]].
Proof.
  split.
  - apply (jog_dead_zone 0x0C tiny []); reflexivity.
  - apply (jog_dead_zone 0x0C (F32.opp tiny) []); reflexivity.
Defined.

(** ** Speeds outside [-1.0, 1.0]: the encoder does not clamp *)

Lemma ten_bits : ten = S754_finite false 10485760 (-20).
Proof. reflexivity. Qed.

Lemma ticks_ten : ticks (units 10485760 (-20)) = 32830.
Proof. vm_compute. reflexivity. Qed.

Lemma wide_bounded : bounded F32.prec F32.emax 10465280 (-20) = true.
Proof. reflexivity. Qed.

Lemma ticks_wide : ticks (units 10465280 (-20)) = 32765.
Proof. vm_compute. reflexivity. Qed.

Lemma too_large (sg : bool) (m : positive) (e : Z) :
  bounded F32.prec F32.emax m e = true ->
  units 10485760 (-20) <= units m e ->
  float_to_int16 (F32.mul (S754_finite sg m e) SCALE) = None.
Proof.
  intros Hb Hu.
  pose proof (units_pos 10485760 (-20) ltac:(lia)) as Hp.
  pose proof (ticks_mono _ _ (conj Hp Hu)) as Hm. rewrite ticks_ten in Hm.
  unfold float_to_int16.
  destruct (mul_ticks_any sg m e Hb) as [-> | ->]; [reflexivity |].
  set (t := ticks (units m e)) in *.
  destruct sg; cbn [cond_Zopp].
  - destruct (Z.leb_spec (-32768) (- t)); [lia | reflexivity].
  - destruct (Z.leb_spec t 32767); [lia |]. now rewrite andb_false_r.
Qed.

(** X7. A speed of magnitude 10 or more, an infinity or a NaN makes the
    conversion to [int16_t] undefined: [moveJog] and [moveMotor] have no
    defined behaviour there. *)
Theorem jog_unclamped_undefined
    (can_id flag : Z) (speed : F32.float) (s : Script) :
  F32.valid speed = true ->
  F32.leb ten speed = true \/ F32.leb speed (F32.opp ten) = true \/
  speed = S754_nan ->
  speed_val speed = None /\
  moveJog can_id speed flag s = None /\
  moveMotor can_id speed s = None.
Proof.
  intros Hv H.
  assert (Hsv : speed_val speed = None).
  { destruct speed as [z | z | | sg m e].
    - destruct H as [H | [H | H]]; destruct z; discriminate.
    - destruct z; reflexivity.
    - reflexivity.
    - pose proof Hv as Hb. unfold F32.valid, valid_binary in Hb.
      assert (Hu : units 10485760 (-20) <= units m e).
      { destruct (bounded_facts m e Hb) as (Hr & _ & _).
        pose proof (units_pos m e ltac:(lia)).
        pose proof (units_pos 10485760 (-20) ltac:(lia)).
        destruct H as [H | [H | H]]; [| | discriminate];
          unfold F32.leb, SFleb in H.
        - rewrite (compare_value ten _ (units 10485760 (-20))
                     (cond_Zopp sg (units m e)) eq_refl Hv eq_refl eq_refl) in H.
          destruct (Z.compare_spec (units 10485760 (-20)) (cond_Zopp sg (units m e)));
            try discriminate; destruct sg; cbn [cond_Zopp] in *; lia.
        - rewrite (compare_value _ (F32.opp ten) (cond_Zopp sg (units m e))
                     (- units 10485760 (-20)) Hv eq_refl eq_refl eq_refl) in H.
          destruct (Z.compare_spec (cond_Zopp sg (units m e)) (- units 10485760 (-20)));
            try discriminate; destruct sg; cbn [cond_Zopp] in *; lia. }
      unfold speed_val. rewrite (too_large sg m e Hb Hu).
      now destruct sg. }
  split; [exact Hsv |].
  split; [now apply moveJog_undefined | unfold moveMotor; now apply moveJog_undefined].
Qed.

Lemma jog_unclamped_undefined_witness :
  speed_val ten = None /\
  moveJog 0x0C ten 1 [] = None /\
  moveMotor 0x0C ten [] = None.
Proof.
  apply (jog_unclamped_undefined 0x0C 1 ten []); [reflexivity | left; reflexivity].
Defined.

(** X8. Between 1.0 and 9.98 in magnitude the encoder goes on encoding, beyond
    the codes of the nominal range: the conversion is defined, with
    3283 <= |k| <= 32765, and the code 0x8000 + k (forward) or 0x7fff + k
    (reverse) is sent. *)
Theorem jog_over_range_encoded
    (can_id flag : Z) (speed : F32.float) (s : Script) :
  F32.valid speed = true ->
  (F32.leb (F32.of_Z 1) speed = true /\ F32.leb speed wide = true) \/
  (F32.leb speed (F32.of_Z (-1)) = true /\ F32.leb (F32.opp wide) speed = true) ->
  exists k code,
    float_to_int16 (F32.mul speed SCALE) = Some k /\
    3283 <= Z.abs k <= 32765 /\
    code = (if F32.ltb F32.zero speed then 0x8000 + k else 0x7fff + k) /\
    0 <= code < 65536 /\
    frames_of (moveJog can_id speed flag) s =
      Some [[0x41; 0x54; 0x90; 0x07; 0xe8; can_id; 0x08; 0x05; 0x70;
             0x00; 0x00; 0x07; flag; code / 256; code mod 256; 0x0d; 0x0a]].
Proof.
  intros Hv H.
  assert (F : exists sg m e,
             speed = S754_finite sg m e /\
             bounded F32.prec F32.emax m e = true /\
             full <= units m e <= units 10465280 (-20) /\
             sg = negb (F32.ltb F32.zero speed)).
  { pose proof (units_pos 8388608 (-23) ltac:(lia)) as Hf. fold full in Hf.
    pose proof (units_pos 10465280 (-20) ltac:(lia)) as Hw.
    destruct speed as [z | z | | sg m e].
    - destruct H as [[H _] | [H _]]; destruct z; discriminate.
    - destruct H as [[H1 H2] | [H1 H2]]; destruct z;
        try discriminate H1; discriminate H2.
    - destruct H as [[H _] | [H _]]; discriminate.
    - exists sg, m, e. split; [reflexivity |]. split; [exact Hv |].
      pose proof Hv as Hb. unfold F32.valid, valid_binary in Hb.
      destruct (bounded_facts m e Hb) as (Hr & _ & _).
      pose proof (units_pos m e ltac:(lia)).
      split; [| now destruct sg].
      destruct H as [[H1 H2] | [H1 H2]]; unfold F32.leb, SFleb in H1, H2.
      + rewrite (compare_value (F32.of_Z 1) _ full (cond_Zopp sg (units m e))
                   eq_refl Hv eq_refl eq_refl) in H1.
        rewrite (compare_value _ wide (cond_Zopp sg (units m e))
                   (units 10465280 (-20)) Hv eq_refl eq_refl eq_refl) in H2.
        destruct (Z.compare_spec full (cond_Zopp sg (units m e)));
          destruct (Z.compare_spec (cond_Zopp sg (units m e)) (units 10465280 (-20)));
          try discriminate; destruct sg; cbn [cond_Zopp] in *; lia.
      + rewrite (compare_value _ (F32.of_Z (-1)) (cond_Zopp sg (units m e)) (- full)
                   Hv eq_refl eq_refl eq_refl) in H1.
        rewrite (compare_value (F32.opp wide) _ (- units 10465280 (-20))
                   (cond_Zopp sg (units m e)) eq_refl Hv eq_refl eq_refl) in H2.
        destruct (Z.compare_spec (cond_Zopp sg (units m e)) (- full));
          destruct (Z.compare_spec (- units 10465280 (-20)) (cond_Zopp sg (units m e)));
          try discriminate; destruct sg; cbn [cond_Zopp] in *; lia. }
  destruct F as (sg & m & e & -> & Hb & [Hlo Hhi] & Hsg).
  pose proof (units_pos 8388608 (-23) ltac:(lia)) as Hf. fold full in Hf.
  pose proof (ticks_mono full (units m e) ltac:(lia)) as T1. rewrite ticks_full in T1.
  pose proof (ticks_mono (units m e) (units 10465280 (-20)) ltac:(lia)) as T2.
  rewrite ticks_wide in T2.
  pose proof (mul_ticks_below 10465280 (-20) sg m e wide_bounded ltac:(lia) Hb Hhi) as Ht.
  set (t := ticks (units m e)) in *.
  assert (Hk : float_to_int16 (F32.mul (S754_finite sg m e) SCALE) =
               Some (cond_Zopp sg t)).
  { unfold float_to_int16. rewrite Ht.
    destruct sg; cbn [cond_Zopp].
    - destruct (Z.leb_spec (-32768) (- t)), (Z.leb_spec (- t) 32767); try lia; reflexivity.
    - destruct (Z.leb_spec (-32768) t), (Z.leb_spec t 32767); try lia; reflexivity. }
  destruct sg; cbn [negb] in Hsg.
  - exists (- t), (0x7fff + - t).
    assert (Hl : F32.ltb F32.zero (S754_finite true m e) = false) by reflexivity.
    rewrite Hl.
    destruct (int16_bytes (0x7fff + - t) ltac:(lia)) as (Hhi' & Hlo' & _).
    repeat split; try assumption; try lia.
    rewrite <- Hhi', <- Hlo'. apply moveJog_frames.
    unfold speed_val. cbn [cond_Zopp] in Hk. now rewrite Hk.
  - exists t, (0x8000 + t).
    assert (Hl : F32.ltb F32.zero (S754_finite false m e) = true) by reflexivity.
    rewrite Hl.
    destruct (int16_bytes (0x8000 + t) ltac:(lia)) as (Hhi' & Hlo' & _).
    repeat split; try assumption; try lia.
    rewrite <- Hhi', <- Hlo'. apply moveJog_frames.
    unfold speed_val. cbn [cond_Zopp] in Hk. now rewrite Hk.
Qed.

Lemma jog_over_range_encoded_witness :
  exists k code,
    float_to_int16 (F32.mul (F32.of_Z 2) SCALE) = Some k /\
    3283 <= Z.abs k <= 32765 /\
    code = (if F32.ltb F32.zero (F32.of_Z 2) then 0x8000 + k else 0x7fff + k) /\
    0 <= code < 65536 /\
    frames_of (moveJog 0x0C (F32.of_Z 2) 1) [] =
      Some [[0x41; 0x54; 0x90; 0x07; 0xe8; 0x0C; 0x08; 0x05; 0x70;
             0x00; 0x00; 0x07; 1; code / 256; code mod 256; 0x0d; 0x0a]].
Proof.
  apply (jog_over_range_encoded 0x0C 1 (F32.of_Z 2) []);
    [reflexivity | left; split; reflexivity].
Defined.

(** ** The bridge, end to end *)

Lemma every_bridge_byte_ok :
  forallb bridge_byte_ok (map Z.of_nat (seq 0 256)) = true.
Proof. vm_compute. reflexivity. Qed.

Lemma bridge_byte (b : Z) :
  0 <= b < 256 ->
  speed_val (clamp (raw_speed b)) = Some (int16_wrap (bridge_code b)) /\
  F32.eqb (clamp (raw_speed b)) F32.zero = (b =? 0).
Proof.
  intros Hb.
  pose proof every_bridge_byte_ok as H.
  rewrite forallb_forall in H.
  specialize (H b). unfold bridge_byte_ok in H.
  assert (Hin : In b (map Z.of_nat (seq 0 256))).
  { rewrite <- (Z2Nat.id b) by lia. apply in_map, in_seq. lia. }
  specialize (H Hin). apply andb_prop in H. destruct H as [H1 H2].
  apply Bool.eqb_prop in H2. split; [| exact H2].
  destruct (speed_val (clamp (raw_speed b))); [| discriminate].
  apply Z.eqb_eq in H1. now subst.
Qed.

Lemma bridge_code_range (b : Z) : 0 <= b < 256 -> 0x7fff <= bridge_code b <= 0x8cd3.
Proof.
  intros Hb. unfold bridge_code.
  destruct (Z.eqb_spec b 0); [lia |].
  Z.to_euclidean_division_equations; lia.
Qed.

Lemma bridge_frames (message : twai_message) (s : Script) (v : Z) :
  data_length_code message <= 8 ->
  accepts_frame message = true ->
  speed_val (clamp (raw_speed (nth 0 (data message) 0))) = Some v ->
  frames_of (processCANMessage (Some message)) s =
  frames_of (moveMotor (Z.land (identifier message) 0x0F)
               (clamp (raw_speed (nth 0 (data message) 0)))) s /\
  result_of (processCANMessage (Some message)) s = Some tt.
Proof.
  intros Hd Ha Hv.
  unfold frames_of, events_of, result_of.
  rewrite (bridge_accepted message s Hd Ha).
  unfold bind, console, emit, ret.
  destruct (moveMotor _ _ _) as [[[r s'] evs] |] eqn:E.
  - rewrite app_nil_r. simpl. auto.
  - exfalso. unfold moveMotor in E.
    rewrite (moveJog_defined _ _ _ v _ Hv) in E.
    destruct (Nat.eq_dec (accepted s 17) 17) as [W | W].
    + rewrite sendCommand_whole in E by exact W. discriminate.
    + rewrite sendCommand_short in E by exact W. discriminate.
Qed.

(** X9. Every bus frame the bridge accepts (1 to 8 payload bytes), whatever
    its payload byte, makes
    it send exactly one jog frame, to the motor named by the identifier's
    low nibble: flag 0 and code 0x7fff for byte 0, else flag 1 and code
    0x8000 + min(byte, 127) * 3283 / 127.  The remaining identifier bits
    and payload bytes play no part. *)
Theorem bridge_end_to_end (message : twai_message) (s : Script) :
  let motor_id := Z.land (identifier message) 0x0F in
  let b := nth 0 (data message) 0 in
  let code := bridge_code b in
  0x0C <= motor_id <= 0x0E ->
  1 <= data_length_code message <= 8 ->
  0 <= b < 256 ->
  result_of (processCANMessage (Some message)) s = Some tt /\
  frames_of (processCANMessage (Some message)) s =
    Some [[0x41; 0x54; 0x90; 0x07; 0xe8; motor_id; 0x08; 0x05; 0x70;
           0x00; 0x00; 0x07; (if b =? 0 then 0 else 1);
           code / 256; code mod 256; 0x0d; 0x0a]].
Proof.
  intros motor_id b code Hid Hdlc Hb.
  assert (Ha : accepts_frame message = true).
  { unfold accepts_frame. fold motor_id.
    destruct (Z.leb_spec 0x0C motor_id), (Z.leb_spec motor_id 0x0E),
      (Z.leb_spec 1 (data_length_code message)); simpl; try reflexivity; lia. }
  destruct (bridge_byte b Hb) as [Hv Hz]. fold code in Hv.
  destruct (bridge_frames message s _ ltac:(lia) Ha Hv) as [Hf Hr].
  split; [exact Hr |].
  rewrite Hf. fold motor_id. fold b.
  unfold moveMotor. rewrite Hz.
  rewrite (moveJog_frames motor_id _ _ _ s Hv).
  pose proof (bridge_code_range b Hb) as Hc. fold code in Hc.
  destruct (int16_bytes code ltac:(lia)) as (-> & -> & _).
  reflexivity.
Qed.

Lemma bridge_end_to_end_witness :
  result_of (processCANMessage
               (Some {| identifier := 0x7FD; data_length_code := 8;
                        data := [64; 1; 2; 3; 4; 5; 6; 7] |})) [] = Some tt /\
  frames_of (processCANMessage
               (Some {| identifier := 0x7FD; data_length_code := 8;
                        data := [64; 1; 2; 3; 4; 5; 6; 7] |})) [] =
    Some [[0x41; 0x54; 0x90; 0x07; 0xe8; 0x0D; 0x08; 0x05; 0x70;
           0x00; 0x00; 0x07; 1;
           bridge_code 64 / 256; bridge_code 64 mod 256; 0x0d; 0x0a]].
Proof.
  apply (bridge_end_to_end
           {| identifier := 0x7FD; data_length_code := 8;
              data := [64; 1; 2; 3; 4; 5; 6; 7] |} []); simpl; lia.
Defined.

(** X10. The code the bridge sends grows strictly with the payload byte up to
    127 and stays at the full-speed code 0x8cd3 from there on: bytes
    128..255 all mean full speed forward. *)
Theorem bridge_code_saturates (b1 b2 : Z) :
  0 <= b1 -> b1 < b2 -> b2 < 256 ->
  exists v1 v2,
    speed_val (clamp (raw_speed b1)) = Some v1 /\
    speed_val (clamp (raw_speed b2)) = Some v2 /\
    (b2 <= 127 -> code16 v1 < code16 v2) /\
    (127 <= b1 -> code16 v1 = 0x8cd3 /\ code16 v2 = 0x8cd3).
Proof.
  intros H1 H12 H2.
  destruct (bridge_byte b1 ltac:(lia)) as [V1 _].
  destruct (bridge_byte b2 ltac:(lia)) as [V2 _].
  pose proof (bridge_code_range b1 ltac:(lia)) as R1.
  pose proof (bridge_code_range b2 ltac:(lia)) as R2.
  exists (int16_wrap (bridge_code b1)), (int16_wrap (bridge_code b2)).
  split; [exact V1 |]. split; [exact V2 |].
  destruct (int16_bytes (bridge_code b1) ltac:(lia)) as (_ & _ & ->).
  destruct (int16_bytes (bridge_code b2) ltac:(lia)) as (_ & _ & ->).
  unfold bridge_code.
  split; intros H.
  - rewrite !Z.min_l by lia.
    destruct (Z.eqb_spec b1 0), (Z.eqb_spec b2 0); try lia;
      Z.to_euclidean_division_equations; lia.
  - rewrite !Z.min_r by lia.
    destruct (Z.eqb_spec b1 0), (Z.eqb_spec b2 0); try lia.
    split; reflexivity.
Qed.

Lemma bridge_code_saturates_witness :
  exists v1 v2,
    speed_val (clamp (raw_speed 127)) = Some v1 /\
    speed_val (clamp (raw_speed 200)) = Some v2 /\
    (200 <= 127 -> code16 v1 < code16 v2) /\
    (127 <= 127 -> code16 v1 = 0x8cd3 /\ code16 v2 = 0x8cd3).
Proof.
  apply (bridge_code_saturates 127 200); lia.
Defined.

(** ** Settling times of the fixed operations *)

(** X12. The settling delay of an activation (200 ms), a deactivation
    (100 ms) and a parameter load (200 ms) is spent whether or not the frame
    was written whole; a whole write adds the 10 ms of [sendCommand] and a
    second flush, a short write neither. *)
Theorem settle_times (can_id : Z) (s : Script) :
  let short10 := negb (accepted s 10 =? 10)%nat in
  let short17 := negb (accepted s 17 =? 17)%nat in
  option_map (fun evs => (waited evs, flushes evs)) (events_of (activateMotor can_id) s)
    = Some (if short10 then (200, 1%nat) else (210, 2%nat)) /\
  option_map (fun evs => (waited evs, flushes evs)) (events_of (deactivateMotor can_id) s)
    = Some (if short10 then (100, 1%nat) else (110, 2%nat)) /\
  option_map (fun evs => (waited evs, flushes evs)) (events_of (loadParams can_id) s)
    = Some (if short17 then (200, 1%nat) else (210, 2%nat)).
Proof.
  cbv zeta.
  assert (R : forall cmd settle,
             option_map (fun evs => (waited evs, flushes evs))
               (events_of (result <- sendCommand cmd ;; delay settle ;; ret result) s)
             = Some (if negb (accepted s (length cmd) =? length cmd)%nat
                     then (settle, 1%nat) else (10 + settle, 2%nat))).
  { intros cmd settle. unfold events_of, bind.
    destruct (Nat.eqb_spec (accepted s (length cmd)) (length cmd)) as [W | W].
    - rewrite (sendCommand_whole cmd s W). cbn. now rewrite Z.add_0_r.
    - rewrite (sendCommand_short cmd s W). cbn. now rewrite Z.add_0_r. }
  unfold activateMotor, deactivateMotor, loadParams.
  repeat split; apply R.
Qed.

(** * The board program *)

Section SysRuns.

Import String Main.

Lemma sbind_run {A B} (m : Sys A) (k : A -> Sys B) (s s1 : Script) (a : A)
    (evs : list SysEvent) :
  m s = Some (a, s1, evs) -> sbind m k s = prepend evs (k a s1).
Proof.
  intros H. unfold sbind, prepend. rewrite H. reflexivity.
Qed.

Lemma if_run {A} (c : bool) (m1 m2 : Sys A) (s : Script) (a1 a2 : A)
    (e1 e2 : list SysEvent) :
  m1 s = Some (a1, s, e1) -> m2 s = Some (a2, s, e2) ->
  (if c then m1 else m2) s =
  Some (if c then a1 else a2, s, if c then e1 else e2).
Proof. now destruct c. Qed.

Lemma scan_run (hw : Board) (addresses : list Z) (devices : Z) (s : Script) :
  scan hw addresses devices s =
  Some (scan_count hw addresses devices, s, scan_events hw addresses).
Proof.
  revert devices. induction addresses as [| a rest IH]; intros devices.
  - reflexivity.
  - cbn [scan scan_count scan_events fold_left flat_map].
    unfold sbind at 1. cbn [semit].
    destruct (i2c_error hw a =? 0).
    + unfold sbind, serial_print, semit.
      destruct (a <? 16); cbn [sret]; rewrite IH; reflexivity.
    + rewrite IH. reflexivity.
Qed.

(** The scan touches nothing but the I2C bus and the console. *)
Lemma scan_events_quiet (hw : Board) (addresses : list Z) :
  link_events (scan_events hw addresses) = [] /\
  led_writes (scan_events hw addresses) = [] /\
  duties (scan_events hw addresses) = [] /\
  mpu_settings (scan_events hw addresses) = [] /\
  twai_calls (scan_events hw addresses) = [] /\
  lines (scan_events hw addresses) = [] /\
  probes (scan_events hw addresses) =
    map (fun a => (a, i2c_error hw a)) addresses.
Proof.
  induction addresses as [| a rest (I1 & I2 & I3 & I4 & I5 & I6 & I7)].
  - repeat split.
  - unfold link_events, led_writes, duties, mpu_settings, twai_calls, lines, probes in *.
    cbn [scan_events flat_map map]. fold (scan_events hw rest).
    rewrite !flat_map_app, I1, I2, I3, I4, I5, I6, I7.
    destruct (i2c_error hw a =? 0), (a <? 16); repeat split.
Qed.

Lemma initCAN_run (hw : Board) (s : Script) :
  initCAN hw s =
  Some (twai_install_ok hw && twai_start_ok hw, s,
        SysTwaiInstall (twai_install_ok hw) ::
        if twai_install_ok hw then
          [SysPrintln "CAN driver installed"; SysTwaiStart (twai_start_ok hw);
           SysPrintln (if twai_start_ok hw then "CAN bus started (500kbps)"
                       else "Failed to start CAN bus")]
        else [SysPrintln "Failed to install CAN driver"]).
Proof.
  unfold initCAN. destruct (twai_install_ok hw), (twai_start_ok hw); reflexivity.
Qed.

Lemma activate_run (can_id : Z) (s : Script) :
  exists evs,
    activateMotor can_id s = Some ((accepted s 10 =? 10)%nat, tl s, evs) /\
    frames evs = [[0x41; 0x54; 0x00; 0x07; 0xe8; can_id; 0x01; 0x00; 0x0d; 0x0a]].
Proof.
  unfold activateMotor, bind.
  destruct (Nat.eqb_spec (accepted s 10) 10) as [W | W].
  - rewrite sendCommand_whole by exact W. eexists. split; reflexivity.
  - rewrite sendCommand_short by exact W. eexists. split; reflexivity.
Qed.

Lemma load_run (can_id : Z) (s : Script) :
  exists evs,
    loadParams can_id s = Some ((accepted s 17 =? 17)%nat, tl s, evs) /\
    frames evs = [[0x41; 0x54; 0x20; 0x07; 0xe8; can_id; 0x08; 0x00;
                   0xc4; 0x00; 0x00; 0x00; 0x00; 0x00; 0x00; 0x0d; 0x0a]].
Proof.
  unfold loadParams, bind.
  destruct (Nat.eqb_spec (accepted s 17) 17) as [W | W].
  - rewrite sendCommand_whole by exact W. eexists. split; reflexivity.
  - rewrite sendCommand_short by exact W. eexists. split; reflexivity.
Qed.

Lemma link_events_map (evs : list Event) : link_events (map SysLink evs) = evs.
Proof.
  unfold link_events. induction evs as [| e r IH]; [reflexivity |].
  cbn [map flat_map app]. now rewrite IH.
Qed.

Lemma quiet_map (evs : list Event) :
  led_writes (map SysLink evs) = [] /\ duties (map SysLink evs) = [] /\
  mpu_settings (map SysLink evs) = [] /\ twai_calls (map SysLink evs) = [] /\
  probes (map SysLink evs) = [] /\ lines (map SysLink evs) = [].
Proof.
  unfold led_writes, duties, mpu_settings, twai_calls, probes, lines.
  induction evs as [| e r (I1 & I2 & I3 & I4 & I5 & I6)]; [repeat split |].
  cbn [map flat_map app]. repeat split; assumption.
Qed.

Lemma frames_app (a b : list Event) : frames (a ++ b) = frames a ++ frames b.
Proof.
  induction a as [| e r IH]; [reflexivity |].
  destruct e; cbn [app frames]; rewrite IH; reflexivity.
Qed.

Lemma setup_motor_run (label : string) (can_id : Z) (s : Script) :
  exists evs,
    setup_motor label can_id s = Some (tt, motor_script s, evs) /\
    sys_frames evs = boot_frames [can_id] s /\
    led_writes evs = [] /\ duties evs = [] /\ mpu_settings evs = [] /\
    twai_calls evs = [] /\ probes evs = [] /\
    ~ In "No I2C devices found!"%string (lines evs).
Proof.
  destruct (activate_run can_id s) as (ea & Ha & Fa).
  destruct (load_run can_id (tl s)) as (el & Hl & Fl).
  destruct (quiet_map ea) as (A1 & A2 & A3 & A4 & A5 & A6).
  destruct (quiet_map el) as (L1 & L2 & L3 & L4 & L5 & L6).
  unfold setup_motor, motor_script, sys_frames.
  unfold sbind at 1. cbn [serial_print semit].
  unfold sbind at 1. unfold link at 1. rewrite Ha.
  cbn [boot_frames].
  destruct (accepted s 10 =? 10)%nat.
  - unfold sbind at 1. cbn [serial_print semit].
    unfold sbind at 1. cbn [sys_delay link delay emit map].
    unfold sbind at 1. unfold link at 1. rewrite Hl.
    assert (P : forall t, (if (accepted (tl s) 17 =? 17)%nat
                 then serial_println "Params loaded ✓"
                 else serial_println "Params failed ✗") t =
                Some (tt, t, [SysPrintln (if (accepted (tl s) 17 =? 17)%nat
                                          then "Params loaded ✓"
                                          else "Params failed ✗")]))
      by (intros t; destruct (accepted (tl s) 17 =? 17)%nat; reflexivity).
    rewrite P. eexists. split; [reflexivity |].
    unfold link_events, led_writes, duties, mpu_settings, twai_calls, probes, lines in *.
    cbn [app flat_map].
    rewrite !flat_map_app, A1, A2, A3, A4, A5, A6. fold (link_events (map SysLink ea)).
    rewrite link_events_map. cbn [app flat_map].
    rewrite !flat_map_app, L1, L2, L3, L4, L5, L6. fold (link_events (map SysLink el)).
    rewrite link_events_map. cbn [app flat_map].
    rewrite app_nil_r, frames_app. cbn [frames]. rewrite Fa, Fl.
    repeat split.
    destruct (accepted (tl s) 17 =? 17)%nat; intros [C | C]; (discriminate C || exact C).
  - cbn [serial_println semit]. eexists. split; [reflexivity |].
    unfold link_events, led_writes, duties, mpu_settings, twai_calls, probes, lines in *.
    cbn [app flat_map].
    rewrite !flat_map_app, A1, A2, A3, A4, A5, A6. fold (link_events (map SysLink ea)).
    rewrite link_events_map. cbn [app flat_map].
    rewrite app_nil_r, Fa.
    repeat split.
    intros [C | C]; (discriminate C || exact C).
Qed.

Lemma boot_frames_cons (can_id : Z) (rest : list Z) (s : Script) :
  boot_frames (can_id :: rest) s =
  boot_frames [can_id] s ++ boot_frames rest (motor_script s).
Proof.
  cbn [boot_frames]. unfold motor_script.
  destruct (accepted s 10 =? 10)%nat; reflexivity.
Qed.

(** The motor part of [setup]. *)
Lemma setup_motors_run (s : Script) :
  exists m12 m13 m14,
    (serial_println "✓ L91 Motor Controller ready" ;;
     sys_delay 500 ;;
     serial_println (nl ++ "Initializing Robstride motors...") ;;
     setup_motor "Motor 12 (0x0C): " MOTOR_12_CAN_ID ;;
     setup_motor "Motor 13 (0x0D): " MOTOR_13_CAN_ID ;;
     setup_motor "Motor 14 (0x0E): " MOTOR_14_CAN_ID ;;
     setRGB 0 1 1)%sys s =
    Some (tt, motor_script (motor_script (motor_script s)),
          motors_events m12 m13 m14) /\
    sys_frames (motors_events m12 m13 m14) = boot_frames [0x0C; 0x0D; 0x0E] s /\
    led_writes (motors_events m12 m13 m14) =
      [(redPin, 0); (greenPin, 1); (bluePin, 1)] /\
    duties (motors_events m12 m13 m14) = [] /\
    mpu_settings (motors_events m12 m13 m14) = [] /\
    twai_calls (motors_events m12 m13 m14) = [] /\
    probes (motors_events m12 m13 m14) = [] /\
    ~ In "No I2C devices found!"%string (lines (motors_events m12 m13 m14)).
Proof.
  destruct (setup_motor_run "Motor 12 (0x0C): " MOTOR_12_CAN_ID s)
    as (e1 & R1 & F1 & A1 & B1 & C1 & D1 & P1 & N1).
  destruct (setup_motor_run "Motor 13 (0x0D): " MOTOR_13_CAN_ID (motor_script s))
    as (e2 & R2 & F2 & A2 & B2 & C2 & D2 & P2 & N2).
  destruct (setup_motor_run "Motor 14 (0x0E): " MOTOR_14_CAN_ID
              (motor_script (motor_script s)))
    as (e3 & R3 & F3 & A3 & B3 & C3 & D3 & P3 & N3).
  exists e1, e2, e3.
  split.
  { do 3 (erewrite sbind_run by reflexivity; cbv beta).
    erewrite sbind_run by exact R1. cbv beta.
    erewrite sbind_run by exact R2. cbv beta.
    erewrite sbind_run by exact R3. cbv beta.
    reflexivity. }
  unfold motors_events, sys_frames, link_events, led_writes, duties,
    mpu_settings, twai_calls, probes, lines in *.
  rewrite !flat_map_app.
  rewrite A1, A2, A3, B1, B2, B3, C1, C2, C3, D1, D2, D3, P1, P2, P3.
  cbn [flat_map app frames]. rewrite !frames_app, F1, F2, F3.
  cbn [frames]. rewrite ?app_nil_r.
  split.
  { rewrite (boot_frames_cons 0x0C [0x0D; 0x0E] s),
      (boot_frames_cons 0x0D [0x0E] (motor_script s)). reflexivity. }
  repeat split.
  intros H. cbn [In] in H. rewrite ?in_app_iff in H. cbn [In] in H.
  repeat match goal with
         | H : _ \/ _ |- _ => destruct H
         | H : False |- _ => exact H
         | H : _ = _ |- _ => discriminate H
         end; auto.
Qed.

Lemma setup_run (hw : Board) (s : Script) :
  exists motors,
    setup hw s =
      Some (mpu_begin hw, motor_script (motor_script (motor_script s)),
            setup_events hw motors) /\
    sys_frames motors = boot_frames [0x0C; 0x0D; 0x0E] s /\
    led_writes motors = [(redPin, 0); (greenPin, 1); (bluePin, 1)] /\
    duties motors = [] /\ mpu_settings motors = [] /\
    twai_calls motors = [] /\ probes motors = [] /\
    ~ In "No I2C devices found!"%string (lines motors).
Proof.
  destruct (setup_motors_run s) as (m12 & m13 & m14 & Rm & Fm).
  exists (motors_events m12 m13 m14). split; [| exact Fm].
  unfold setup.
  do 14 (erewrite sbind_run by reflexivity; cbv beta).
  erewrite sbind_run by apply scan_run. cbv beta.
  erewrite sbind_run by (apply if_run; reflexivity). cbv beta.
  do 2 (erewrite sbind_run by reflexivity; cbv beta).
  erewrite sbind_run by (apply if_run; reflexivity). cbv beta.
  erewrite sbind_run by reflexivity. cbv beta.
  erewrite sbind_run by apply initCAN_run. cbv beta.
  erewrite sbind_run by (apply if_run; reflexivity). cbv beta.
  do 2 (erewrite sbind_run by reflexivity; cbv beta).
  cbv iota.
  erewrite sbind_run by exact Rm. cbv beta.
  do 7 (erewrite sbind_run by reflexivity; cbv beta).
  cbn [prepend sret].
  replace (if mpu_begin hw then true else false) with (mpu_begin hw)
    by now destruct (mpu_begin hw).
  reflexivity.
Qed.

(** What [setup] shows besides its motor part. *)

Ltac setup_observation hw :=
  let S1 := fresh in let S2 := fresh in let S3 := fresh in let S4 := fresh in
  let S5 := fresh in let S6 := fresh in let S7 := fresh in
  destruct (scan_events_quiet hw scan_addresses)
    as (S1 & S2 & S3 & S4 & S5 & S6 & S7);
  unfold setup_events, sys_frames, link_events, led_writes, duties,
    mpu_settings, twai_calls, probes, lines in *;
  rewrite !flat_map_app;
  rewrite ?S1, ?S2, ?S3, ?S4, ?S5, ?S6, ?S7;
  destruct (scan_count hw scan_addresses 0 =? 0), (mpu_begin hw),
    (twai_install_ok hw), (twai_start_ok hw);
  cbn [flat_map app andb frames];
  rewrite ?frames_app, ?app_nil_r; cbn [frames]; rewrite ?app_nil_r.

Lemma setup_events_frames (hw : Board) (motors : list SysEvent) :
  sys_frames (setup_events hw motors) = sys_frames motors.
Proof. setup_observation hw; reflexivity. Qed.

Lemma setup_events_led (hw : Board) (motors : list SysEvent) :
  led_writes (setup_events hw motors) =
  [(redPin, 0); (greenPin, 1); (bluePin, 0)]
  ++ (if twai_install_ok hw && twai_start_ok hw
      then [(redPin, 0); (greenPin, 0); (bluePin, 1)]
      else [(redPin, 1); (greenPin, 0); (bluePin, 0)])
  ++ led_writes motors.
Proof. setup_observation hw; reflexivity. Qed.

Lemma setup_events_duties (hw : Board) (motors : list SysEvent) :
  duties (setup_events hw motors) = duties motors ++ [pulse_duty 1500].
Proof. setup_observation hw; reflexivity. Qed.

Lemma setup_events_mpu (hw : Board) (motors : list SysEvent) :
  mpu_settings (setup_events hw motors) =
  (if mpu_begin hw
   then [AccelerometerRange8G; GyroRange500Deg; FilterBandwidth21Hz]
   else [])
  ++ mpu_settings motors.
Proof. setup_observation hw; reflexivity. Qed.

Lemma setup_events_twai (hw : Board) (motors : list SysEvent) :
  twai_calls (setup_events hw motors) =
  (SysTwaiInstall (twai_install_ok hw) ::
   if twai_install_ok hw then [SysTwaiStart (twai_start_ok hw)] else [])
  ++ twai_calls motors.
Proof. setup_observation hw; reflexivity. Qed.

Lemma setup_events_probes (hw : Board) (motors : list SysEvent) :
  probes (setup_events hw motors) =
  map (fun a => (a, i2c_error hw a)) scan_addresses ++ probes motors.
Proof. setup_observation hw; reflexivity. Qed.

Lemma setup_events_lines (hw : Board) (motors : list SysEvent) :
  ~ In "No I2C devices found!"%string (lines motors) ->
  (In "No I2C devices found!"%string (lines (setup_events hw motors)) <->
   scan_count hw scan_addresses 0 = 0).
Proof.
  intros Nm.
  destruct (scan_events_quiet hw scan_addresses) as (_ & _ & _ & _ & _ & S6 & _).
  unfold setup_events, lines in *.
  rewrite !flat_map_app, S6.
  destruct (Z.eqb_spec (scan_count hw scan_addresses 0) 0) as [E | E].
  - split; [intros _; exact E | intros _].
    cbn [flat_map app In]. repeat (first [left; reflexivity | right]).
  - split; [intros H; exfalso | intros C; contradiction].
    destruct (mpu_begin hw), (twai_install_ok hw), (twai_start_ok hw);
      cbn [flat_map app andb In] in H; rewrite ?in_app_iff in H; cbn [In] in H;
      repeat match goal with
             | H : _ \/ _ |- _ => destruct H
             | H : False |- _ => exact H
             | H : _ = _ |- _ => discriminate H
             | H : In _ _ |- _ => exact (Nm H)
             end.
Qed.

Lemma scan_count_filter (hw : Board) (addresses : list Z) (devices : Z) :
  0 <= devices ->
  devices + Z.of_nat (List.length addresses) < 256 ->
  scan_count hw addresses devices =
  devices + Z.of_nat (List.length (filter (fun a => i2c_error hw a =? 0) addresses)).
Proof.
  unfold scan_count.
  revert devices. induction addresses as [| a rest IH]; intros devices H0 H.
  - cbn. lia.
  - cbn [fold_left filter List.length] in *.
    destruct (i2c_error hw a =? 0).
    + rewrite Z.mod_small by lia.
      rewrite (IH (devices + 1)) by lia. cbn [List.length]. lia.
    + rewrite (IH devices) by lia. reflexivity.
Qed.

Lemma scan_finds_nothing (hw : Board) :
  scan_count hw scan_addresses 0 = 0 <->
  (forall a, 1 <= a <= 126 -> i2c_error hw a <> 0).
Proof.
  rewrite scan_count_filter
    by (try change (List.length scan_addresses) with 126%nat; lia).
  assert (Hin : forall a, In a scan_addresses <-> 1 <= a <= 126).
  { intros a. unfold scan_addresses. rewrite in_map_iff. split.
    - intros (n & <- & Hn). apply in_seq in Hn. lia.
    - intros Ha. exists (Z.to_nat a). split; [lia |]. apply in_seq. lia. }
  split.
  - intros H a Ha E.
    assert (In a (filter (fun a => i2c_error hw a =? 0) scan_addresses)).
    { apply filter_In. split; [now apply Hin | now apply Z.eqb_eq]. }
    destruct (filter (fun a => i2c_error hw a =? 0) scan_addresses);
      [contradiction | cbn [List.length] in H; lia].
  - intros H.
    destruct (filter (fun a => i2c_error hw a =? 0) scan_addresses) as [| a r] eqn:F;
      [reflexivity | exfalso].
    assert (Ia : In a (filter (fun a => i2c_error hw a =? 0) scan_addresses))
      by (rewrite F; now left).
    apply filter_In in Ia. destruct Ia as [Ia Ea].
    apply (H a); [now apply Hin | now apply Z.eqb_eq].
Qed.

(** ** [setup] *)

(** X13. [setup] always runs to its end, whatever the hardware answers and
    the transport accepts, and returns [mpu.begin()]'s answer as
    [mpuInitialized].  On the motor link it sends, for the motors 0x0C,
    0x0D, 0x0E in this order, the activation frame, followed by the
    parameter frame exactly when the activation frame was written whole
    (a failed parameter load changes nothing for the motors after it). *)
Theorem setup_motor_protocol (hw : Board) (s : Script) :
  exists evs,
    setup hw s =
      Some (mpu_begin hw, motor_script (motor_script (motor_script s)), evs) /\
    sys_frames evs = boot_frames [0x0C; 0x0D; 0x0E] s.
Proof.
  destruct (setup_run hw s) as (motors & R & F & _).
  eexists. split; [exact R |].
  now rewrite setup_events_frames.
Qed.

(** X14. After [setup] the LED is cyan (red 0, green 1, blue 1), whatever
    it showed before and whatever failed on the way: the red of a failed
    CAN initialisation is overwritten by the time [setup] returns.  The
    servo has been set once, to the 1500 us pulse (duty 4915). *)
Theorem setup_final_indicators (hw : Board) (s : Script) (led : Z * Z * Z) :
  exists evs,
    sys_events_of (setup hw) s = Some evs /\
    led_after (led_writes evs) led = (0, 1, 1) /\
    duties evs = [4915].
Proof.
  destruct (setup_run hw s) as (motors & R & _ & L & D & _).
  unfold sys_events_of. rewrite R. eexists. split; [reflexivity |].
  rewrite setup_events_led, setup_events_duties, L, D.
  destruct led as [[r g] b].
  destruct (twai_install_ok hw && twai_start_ok hw); split; reflexivity.
Qed.

(** X15. The I2C scan of [setup] probes the addresses 1 to 126, each once
    and in increasing order (0 and 127 are never probed), and the line
    "No I2C devices found!" is printed exactly when none of them
    acknowledges. *)
Theorem setup_i2c_scan (hw : Board) (s : Script) :
  exists evs,
    sys_events_of (setup hw) s = Some evs /\
    probes evs = map (fun a => (a, i2c_error hw a)) (map Z.of_nat (seq 1 126)) /\
    (In "No I2C devices found!"%string (lines evs) <->
     forall a, 1 <= a <= 126 -> i2c_error hw a <> 0).
Proof.
  destruct (setup_run hw s) as (motors & R & _ & _ & _ & _ & _ & P & N).
  unfold sys_events_of. rewrite R. eexists. split; [reflexivity |].
  rewrite setup_events_probes, P, app_nil_r.
  split; [reflexivity |].
  rewrite (setup_events_lines hw motors N). apply scan_finds_nothing.
Qed.

(** X16. In [setup] the sensor is configured (accelerometer range, gyro
    range, filter bandwidth, in this order) exactly when [mpu.begin()]
    succeeded, and the CAN driver is started exactly when its installation
    succeeded: after a failed installation [twai_start] is not called. *)
Theorem setup_sensor_and_bus (hw : Board) (s : Script) :
  exists evs,
    sys_events_of (setup hw) s = Some evs /\
    mpu_settings evs =
      (if mpu_begin hw
       then [AccelerometerRange8G; GyroRange500Deg; FilterBandwidth21Hz]
       else []) /\
    twai_calls evs =
      SysTwaiInstall (twai_install_ok hw) ::
      (if twai_install_ok hw then [SysTwaiStart (twai_start_ok hw)] else []).
Proof.
  destruct (setup_run hw s) as (motors & R & _ & _ & _ & M & T & _).
  unfold sys_events_of. rewrite R. eexists. split; [reflexivity |].
  now rewrite setup_events_mpu, setup_events_twai, M, T, !app_nil_r.
Qed.

(** ** The servo pulse *)

(** X17. [setPulse] computes the duty in 32-bit unsigned arithmetic.  Up
    to 65537 us the product does not wrap: the duty is us * 65535 / 20000,
    rounded down, and grows with the pulse width; within one 20000 us
    period it fits the 16-bit resolution of the channel. *)
Theorem pulse_duty_exact (us1 us2 : Z) :
  0 <= us1 -> us1 <= us2 -> us2 <= 65537 ->
  pulse_duty us1 = us1 * 65535 / 20000 /\
  pulse_duty us1 <= pulse_duty us2 /\
  (us2 <= 20000 -> pulse_duty us2 <= 65535).
Proof.
  intros H0 H12 H2.
  assert (E : forall us, 0 <= us <= 65537 -> pulse_duty us = us * 65535 / 20000).
  { intros us Hu. unfold pulse_duty, uint32.
    change (2 ^ 32) with 4294967296.
    rewrite (Z.mod_small us) by lia.
    rewrite Z.mod_small by lia. reflexivity. }
  rewrite !E by lia.
  split; [reflexivity |].
  split.
  - apply Z.div_le_mono; lia.
  - intros Hp. apply Z.div_le_upper_bound; lia.
Qed.

Lemma pulse_duty_exact_witness :
  pulse_duty 1500 = 1500 * 65535 / 20000 /\
  pulse_duty 1500 <= pulse_duty 1800 /\
  (1800 <= 20000 -> pulse_duty 1800 <= 65535).
Proof.
  apply (pulse_duty_exact 1500 1800); lia.
Defined.

(** ** [loop] *)

Lemma elapsed_over_rollover (last d limit : Z) :
  0 <= last < 2 ^ 32 -> 0 <= d < 2 ^ 32 ->
  elapsed_over (uint32 (last + d)) last limit = (limit <? d).
Proof.
  intros Hl Hd. unfold elapsed_over, uint32.
  rewrite Zminus_mod_idemp_l.
  replace (last + d - last) with d by lia.
  rewrite Z.mod_small by lia. reflexivity.
Qed.

(** X18. One iteration of [loop], once the bridge has handled the frame
    received: the servo is moved exactly when more than 5000 ms have
    passed on the millisecond counter since [lastServoMove], also across
    the wrap of the 32-bit counter; the move is the 1800 us pulse, a wait
    and the 1500 us pulse, and [lastServoMove] takes the counter read after
    it.  Neither the servo nor the sensor part writes to the motor link:
    its frames are those of the bridge. *)
Theorem loop_servo_schedule
    (g : Globals) (i : Inputs) (s s1 : Script) (evs1 : list Event) (d : Z) :
  processCANMessage (rx i) s = Some (tt, s1, evs1) ->
  0 <= lastServoMove g < 2 ^ 32 -> 0 <= d < 2 ^ 32 ->
  millis_servo i = uint32 (lastServoMove g + d) ->
  exists g' evs,
    loop g i s = Some (g', s1, evs) /\
    duties evs = (if 5000 <? d then [pulse_duty 1800; pulse_duty 1500] else []) /\
    lastServoMove g' =
      (if 5000 <? d then uint32 (millis_servo_done i) else lastServoMove g) /\
    mpuInitialized g' = mpuInitialized g /\
    sys_frames evs = frames evs1.
Proof.
  intros Hb Hl Hd Hm.
  pose proof (elapsed_over_rollover (lastServoMove g) d 5000 Hl Hd) as Hr.
  rewrite <- Hm in Hr.
  destruct (quiet_map evs1) as (Q1 & Q2 & Q3 & Q4 & Q5 & Q6).
  unfold loop.
  erewrite sbind_run by (unfold link; rewrite Hb; reflexivity). cbv beta.
  destruct (mpuInitialized g && elapsed_over (millis_mpu i) (lastMPURead g) 1000);
    (erewrite sbind_run by reflexivity; cbv beta; cbn [lastServoMove];
     rewrite Hr; destruct (5000 <? d);
     (erewrite sbind_run by reflexivity; cbv beta);
     (erewrite sbind_run by reflexivity; cbv beta);
     cbn [prepend sret]; eexists _, _; (split; [reflexivity |]);
     unfold duties, sys_frames, link_events in *;
     rewrite !flat_map_app; fold (link_events (map SysLink evs1));
     rewrite Q2, link_events_map; cbn [flat_map app map frames];
     rewrite ?frames_app, ?app_nil_r; cbn [frames]; rewrite ?app_nil_r;
     repeat split).
Qed.

Lemma loop_servo_schedule_witness :
  exists g' evs,
    loop {| mpuInitialized := false; lastMPURead := 0; lastServoMove := 4294967000 |}
         {| rx := None; millis_mpu := 0; millis_mpu_done := 0;
            millis_servo := uint32 (4294967000 + 6000); millis_servo_done := 7704;
            accel_x := F32.zero; accel_y := F32.zero; accel_z := F32.zero;
            gyro_x := F32.zero; gyro_y := F32.zero; gyro_z := F32.zero;
            temperature := F32.zero |} [] = Some (g', [], evs) /\
    duties evs = (if 5000 <? 6000 then [pulse_duty 1800; pulse_duty 1500] else []) /\
    lastServoMove g' = (if 5000 <? 6000 then uint32 7704 else 4294967000) /\
    mpuInitialized g' = false /\
    sys_frames evs = frames [].
Proof.
  apply (loop_servo_schedule
           {| mpuInitialized := false; lastMPURead := 0; lastServoMove := 4294967000 |}
           {| rx := None; millis_mpu := 0; millis_mpu_done := 0;
              millis_servo := uint32 (4294967000 + 6000); millis_servo_done := 7704;
              accel_x := F32.zero; accel_y := F32.zero; accel_z := F32.zero;
              gyro_x := F32.zero; gyro_y := F32.zero; gyro_z := F32.zero;
              temperature := F32.zero |} [] [] [] 6000);
    [reflexivity | simpl; lia | lia | reflexivity].
Defined.

(** X11. A frame whose data length code exceeds the eight bytes of the data
    array has no defined behaviour in [loop] either: the echo of the bridge
    reads past the array before anything else of the iteration runs. *)
Theorem loop_overread_undefined
    (g : Globals) (i : Inputs) (s : Script) (message : twai_message) :
  rx i = Some message -> 8 < data_length_code message ->
  loop g i s = None.
Proof.
  intros Hrx Hdlc. unfold loop, sbind, link.
  rewrite Hrx, bridge_overread by exact Hdlc. reflexivity.
Qed.

Lemma loop_overread_undefined_witness :
  loop {| mpuInitialized := false; lastMPURead := 0; lastServoMove := 0 |}
       {| rx := Some {| identifier := 0x0C; data_length_code := 9;
                        data := [1; 2; 3; 4; 5; 6; 7; 8] |};
          millis_mpu := 0; millis_mpu_done := 0;
          millis_servo := 0; millis_servo_done := 0;
          accel_x := F32.zero; accel_y := F32.zero; accel_z := F32.zero;
          gyro_x := F32.zero; gyro_y := F32.zero; gyro_z := F32.zero;
          temperature := F32.zero |} [] = None.
Proof.
  apply (loop_overread_undefined _ _ _
           {| identifier := 0x0C; data_length_code := 9;
              data := [1; 2; 3; 4; 5; 6; 7; 8] |});
    [reflexivity | simpl; lia].
Defined.

End SysRuns.
